(** * USSP-GCMs: the data-download script and the notebook recipes

    The repository is a shell script that fetches a data archive and three
    notebooks that load gridded climate fields with xarray, combine them
    with a few lines of arithmetic and plot the result.  This development
    embeds

    - [download_data.sh] as a command of a small shell ([Module Shell]);
    - labelled arrays and the xarray reductions the notebooks call
      ([Module Xr]), with floating-point numbers idealised as real numbers;
    - the cells of the notebooks as functions over those arrays
      ([Module DataAnalysis], [Module Radiation]);
    - the notebook kernel (objects in a heap, figures, files, deferred
      arrays) where a property is about effects ([Module Kernel], with
      [compare_plot] of notebook 3, [Module Files], [Module Dask]).

    Definitions come first; the properties follow in the second half. *)

From Stdlib Require Import Reals Lra Lia ZArith List Ascii String Sorted.
From stdpp Require Import gmap strings list pretty.

#[global] Instance R_eq_dec : EqDecision R := Req_dec_T.

(* ===================================================================== *)
(** ** The shell and [download_data.sh]                                   *)
(* ===================================================================== *)

Module Shell.

(** A word of a command: literal text, or a positional parameter [$n]. *)
Inductive word : Type :=
| Lit (s : string)
| Param (n : nat).

(** The commands of the shell fragment: what the script uses (simple
    commands in sequence) and the constructs a script handles failures
    with. *)
Inductive command : Type :=
| Simple (ws : list word)
| Seq (c1 c2 : command)
| AndIf (c1 c2 : command)
| OrIf (c1 c2 : command)
| IfThenElse (c t e : command)
| Exit (n : nat)
| SetErrexit.

(** What a file holds: plain bytes, or a gzipped tar archive with its
    members. *)
Inductive content : Type :=
| Bytes (s : string)
| TarGz (members : list (string * string)).

#[global] Instance content_eq_dec : EqDecision content.
Proof. solve_decision. Defined.

(** One run of an external program: its argument vector and exit status. *)
Definition event : Type := list string * nat.

(** The state of a run: the files of the directory, the lines the script
    itself has printed with [echo] (what the external programs print is not
    modelled), the external programs run so far, and whether [set -e] is
    on. *)
Record state : Type := mkState {
  fs : gmap string content;
  printed : list string;
  trace : list event;
  errexit : bool
}.

(** External programs: the new file system and the exit status, from the
    argument vector and the file system. *)
Record tools : Type := mkTools {
  run_tool : list string → gmap string content → gmap string content * nat
}.

Inductive outcome : Type :=
| Running (st : state) (status : nat)
| Terminated (st : state) (status : nat).

Definition expand (args : list string) (w : word) : string :=
  match w with
  | Lit s => s
  | Param n => default ""%string (args !! n)
  end.

Definition join (ws : list string) : string :=
  match ws with
  | [] => ""%string
  | w :: ws' => foldl (λ acc x, acc +:+ " " +:+ x)%string w ws'
  end.

Definition simple (T : tools) (guarded : bool) (argv : list string) (st : state) : outcome :=
  match argv with
  | [] => Running st 0
  | prog :: rest =>
    if decide (prog = "echo"%string) then
      Running (mkState (fs st) (printed st ++ [join rest]) (trace st) (errexit st)) 0
    else
      let '(fs', status) := run_tool T argv (fs st) in
      let st' := mkState fs' (printed st) (trace st ++ [(argv, status)]) (errexit st) in
      if errexit st && negb guarded && negb (status =? 0)%nat
      then Terminated st' status
      else Running st' status
  end.

(** [guarded] is true inside the condition of [if], on the left of [&&] and
    [||]: there a failure does not trip [set -e]. *)
Fixpoint exec (T : tools) (args : list string) (guarded : bool)
    (c : command) (st : state) : outcome :=
  match c with
  | Simple ws => simple T guarded (expand args <$> ws) st
  | Seq c1 c2 =>
    match exec T args guarded c1 st with
    | Running st' _ => exec T args guarded c2 st'
    | Terminated st' s => Terminated st' s
    end
  | AndIf c1 c2 =>
    match exec T args true c1 st with
    | Running st' s => if (s =? 0)%nat then exec T args guarded c2 st' else Running st' s
    | Terminated st' s => Terminated st' s
    end
  | OrIf c1 c2 =>
    match exec T args true c1 st with
    | Running st' s => if (s =? 0)%nat then Running st' s else exec T args guarded c2 st'
    | Terminated st' s => Terminated st' s
    end
  | IfThenElse c t e =>
    match exec T args true c st with
    | Running st' s => if (s =? 0)%nat then exec T args guarded t st' else exec T args guarded e st'
    | Terminated st' s => Terminated st' s
    end
  | Exit n => Terminated st n
  | SetErrexit => Running (mkState (fs st) (printed st) (trace st) true) 0
  end.

Definition final (o : outcome) : state * nat :=
  match o with
  | Running st s => (st, s)
  | Terminated st s => (st, s)
  end.

(** [bash script args] in a directory holding [files]. *)
Definition run (T : tools) (script : command) (args : list string)
    (files : gmap string content) : state * nat :=
  final (exec T args false script (mkState files [] [] false)).

(** Whether a script reacts to a failing command at all. *)
Fixpoint handles_errors (c : command) : bool :=
  match c with
  | Simple _ => false
  | Seq c1 c2 => handles_errors c1 || handles_errors c2
  | AndIf _ _ | OrIf _ _ | IfThenElse _ _ _ | Exit _ | SetErrexit => true
  end.

(** Whether a script reads its positional parameters. *)
Fixpoint reads_args (c : command) : bool :=
  match c with
  | Simple ws => existsb (λ w, match w with Param _ => true | Lit _ => false end) ws
  | Seq c1 c2 | AndIf c1 c2 | OrIf c1 c2 => reads_args c1 || reads_args c2
  | IfThenElse c t e => reads_args c || reads_args t || reads_args e
  | Exit _ | SetErrexit => false
  end.

(** *** The script *)

Definition archive_url : string :=
  "http://wilma.to.isac.cnr.it/diss/paolo/ussp/ussp_data.tar.gz".

Definition archive_file : string := "ussp_data.tar.gz".

Definition wget_argv : list string := ["wget"; archive_url]%string.

Definition tar_argv : list string := ["tar"; "xvfz"; archive_file]%string.

(** [download_data.sh], line by line. *)
Definition download_data : command :=
  Seq (Simple [Lit "echo"; Lit "Download the USSP data"])
 (Seq (Simple [Lit "wget"; Lit archive_url])
 (Seq (Simple [Lit "echo"; Lit "Unpack the USSP data"])
      (Simple [Lit "tar"; Lit "xvfz"; Lit archive_file]))).

(** *** wget and tar as they behave on a machine

    [net] is what the network serves, by URL.  wget saves under the last
    path component of the URL and never clobbers: when the name is taken it
    appends [.1], [.2], ...; a URL that cannot be fetched is exit status 4.
    [tar xvfz f] writes every member of the archive [f], replacing files of
    the same path; a missing or unreadable archive is exit status 2. *)

Fixpoint basename_from (acc : string) (s : string) : string :=
  match s with
  | EmptyString => acc
  | String c s' =>
    if decide (c = "/"%char) then basename_from EmptyString s'
    else basename_from (acc +:+ String c EmptyString) s'
  end.

Definition basename (s : string) : string := basename_from EmptyString s.

Fixpoint free_name (fuel : nat) (k : nat) (name : string)
    (files : gmap string content) : string :=
  let candidate := (name +:+ "." +:+ pretty k)%string in
  match fuel with
  | O => candidate
  | S fuel' =>
    match files !! candidate with
    | None => candidate
    | Some _ => free_name fuel' (S k) name files
    end
  end.

Definition save_name (name : string) (files : gmap string content) : string :=
  match files !! name with
  | None => name
  | Some _ => free_name (size files) 1 name files
  end.

Definition unpack (members : list (string * string))
    (files : gmap string content) : gmap string content :=
  foldl (λ acc m, <[m.1 := Bytes m.2]> acc) files members.

Definition posix_tools (net : gmap string content) : tools :=
  mkTools (λ argv files,
    match argv with
    | [prog; url] =>
      if decide (prog = "wget"%string) then
        match net !! url with
        | Some c => (<[save_name (basename url) files := c]> files, 0%nat)
        | None => (files, 4%nat)
        end
      else (files, 127%nat)
    | [prog; flags; f] =>
      if decide (prog = "tar"%string ∧ flags = "xvfz"%string) then
        match files !! f with
        | Some (TarGz members) => (unpack members files, 0%nat)
        | _ => (files, 2%nat)
        end
      else (files, 127%nat)
    | _ => (files, 127%nat)
    end).

End Shell.

(* ===================================================================== *)
(** ** Labelled arrays and the xarray operations the notebooks call       *)
(* ===================================================================== *)

(** Numbers are real numbers: the model idealises binary64 arithmetic, so
    rounding, infinities and not-a-number values are outside it.  Where
    numpy returns not-a-number for want of data (the mean of nothing, a
    weighted mean whose weights sum to zero) and where Python raises, an
    operation returns [None]. *)

Module Xr.

#[local] Open Scope R_scope.

#[global] Instance Rle_decision (x y : R) : Decision (x <= y) := Rle_dec x y.

#[global] Instance Rlt_decision (x y : R) : Decision (x < y) := Rlt_dec x y.

#[global] Instance Rle_rel_decision : RelDecision Rle | 100 := Rle_decision.

#[global] Instance Rlt_rel_decision : RelDecision Rlt | 100 := Rlt_decision.

Definition Rsum (l : list R) : R := foldr Rplus 0 l.

(** [numpy.mean] of a one-dimensional array. *)
Definition mean (l : list R) : option R :=
  match l with
  | [] => None
  | _ :: _ => Some (Rsum l / INR (length l))
  end.

(** [numpy.cumsum]: [out[0] = a[0]], [out[i] = out[i-1] + a[i]]. *)
Fixpoint cumsum_from (acc : R) (l : list R) : list R :=
  match l with
  | [] => []
  | x :: l' => (acc + x) :: cumsum_from (acc + x) l'
  end.

Definition cumsum (l : list R) : list R := cumsum_from 0 l.

(** [numpy.deg2rad]. *)
Definition deg2rad (x : R) : R := x * (PI / 180).

(** *** Alignment of coordinate axes

    Arithmetic between two arrays first aligns them (the default join is
    the inner one): an axis both operands carry with equal labels is left
    as it is; otherwise both operands are reindexed to the labels they
    share, which pandas refuses when an axis repeats a label. *)

Section Align.
Context {L : Type} `{EqDecision L}.

Definition common (l1 l2 : list L) : list L := filter (λ x, x ∈ l2) l1.

Definition align_axis (l1 l2 : list L) : option (list L) :=
  if decide (l1 = l2) then Some l1
  else if decide (NoDup l1 ∧ NoDup l2) then Some (common l1 l2)
  else None.

Definition position (x : L) (labels : list L) : option nat :=
  fst <$> list_find (λ y, y = x) labels.

(** The items of an axis labelled [old], at the labels [new]. *)
Definition reindex {A : Type} (old : list L) (items : list A) (new : list L) : list A :=
  if decide (old = new) then items
  else omap (λ x, position x old ≫= λ i, items !! i) new.

End Align.

(** *** Arrays by their dimensions *)

(** Dimensions [(lat)]: a zonal profile, or the latitude coordinate. *)
Record zonal : Type := mkZonal {
  z_lat : list R;
  z_val : list R
}.

(** Dimensions [(lat, lon)]. *)
Record field : Type := mkField {
  f_lat : list R;
  f_lon : list R;
  f_val : list (list R)
}.

(** Dimensions [(time, lat, lon)]; a time label is a date written as the
    integer yyyymmdd, so that the order of labels is the order of dates. *)
Record cube : Type := mkCube {
  c_time : list Z;
  c_lat : list R;
  c_lon : list R;
  c_val : list (list (list R))
}.

(** A dataset: variables of dimensions [(time, lat, lon)] on shared
    coordinates. *)
Record dataset : Type := mkDataset {
  d_time : list Z;
  d_lat : list R;
  d_lon : list R;
  d_vars : gmap string (list (list (list R)))
}.

(** The shape invariant of xarray: the data has one entry per label. *)
Definition wf_zonal (z : zonal) : Prop := length (z_val z) = length (z_lat z).

Definition wf_rows (lat lon : list R) (v : list (list R)) : Prop :=
  length v = length lat ∧ Forall (λ row, length row = length lon) v.

Definition wf_field (f : field) : Prop := wf_rows (f_lat f) (f_lon f) (f_val f).

Definition wf_cube (c : cube) : Prop :=
  length (c_val c) = length (c_time c) ∧
  Forall (wf_rows (c_lat c) (c_lon c)) (c_val c).

Definition wf_dataset (ds : dataset) : Prop :=
  ∀ name v, d_vars ds !! name = Some v →
    wf_cube (mkCube (d_time ds) (d_lat ds) (d_lon ds) v).

(** The value of a cell, by position. *)
Definition cell (v : list (list R)) (i j : nat) : option R :=
  v !! i ≫= λ row, row !! j.

(** [ds[name]]; a missing variable is a [KeyError]. *)
Definition getitem (ds : dataset) (name : string) : option cube :=
  v ← d_vars ds !! name;
  Some (mkCube (d_time ds) (d_lat ds) (d_lon ds) v).

(** [ds.lat], the latitude coordinate as an array over itself. *)
Definition lat_coord (lat : list R) : zonal := mkZonal lat lat.

(** A function applied to every value ([np.cos], arithmetic with a scalar). *)
Definition zmap (g : R → R) (z : zonal) : zonal :=
  mkZonal (z_lat z) (g <$> z_val z).

Definition zonal_binop (op : R → R → R) (a b : zonal) : option zonal :=
  lat ← align_axis (z_lat a) (z_lat b);
  Some (mkZonal lat
          (zip_with op (reindex (z_lat a) (z_val a) lat)
                       (reindex (z_lat b) (z_val b) lat))).

Definition reindex_rows (lat lon : list R) (v : list (list R))
    (lat' lon' : list R) : list (list R) :=
  (λ row, reindex lon row lon') <$> reindex lat v lat'.

Definition field_binop (op : R → R → R) (a b : field) : option field :=
  lat ← align_axis (f_lat a) (f_lat b);
  lon ← align_axis (f_lon a) (f_lon b);
  Some (mkField lat lon
          (zip_with (zip_with op)
             (reindex_rows (f_lat a) (f_lon a) (f_val a) lat lon)
             (reindex_rows (f_lat b) (f_lon b) (f_val b) lat lon))).

Definition cube_binop (op : R → R → R) (a b : cube) : option cube :=
  time ← align_axis (c_time a) (c_time b);
  lat ← align_axis (c_lat a) (c_lat b);
  lon ← align_axis (c_lon a) (c_lon b);
  Some (mkCube time lat lon
          (zip_with (zip_with (zip_with op))
             ((λ v, reindex_rows (c_lat a) (c_lon a) v lat lon)
                <$> reindex (c_time a) (c_val a) time)
             ((λ v, reindex_rows (c_lat b) (c_lon b) v lat lon)
                <$> reindex (c_time b) (c_val b) time))).

(** *** Selection by a slice of labels

    [a.sel(dim=slice(lo, hi))] asks the index of the axis for the positions
    of the two bounds ([pandas.Index.slice_locs]) and keeps the items
    between the two positions.  On an index in increasing order the start
    is the number of labels before [lo] and the stop the number of labels
    up to [hi] ([searchsorted] on the left and on the right). *)

Section Slices.
Context {K : Type} (le lt : K → K → Prop) `{!RelDecision le, !RelDecision lt}.

(** [pandas.Index.is_monotonic_increasing]: no label is before the one it
    follows. *)
Fixpoint is_monotonic (labels : list K) : bool :=
  match labels with
  | [] => true
  | x :: rest =>
    match rest with
    | [] => true
    | y :: _ => bool_decide (le x y)
    end && is_monotonic rest
  end.

Definition searchsorted_left (x : K) (labels : list K) : nat :=
  length (filter (λ y, lt y x) labels).

Definition searchsorted_right (x : K) (labels : list K) : nat :=
  length (filter (λ y, le y x) labels).

End Slices.

(** [items[start:stop]] *)
Definition slice {A : Type} (bounds : nat * nat) (items : list A) : list A :=
  take (bounds.2 - bounds.1) (drop bounds.1 items).

(** The positions of [a.sel(time=slice(first, last))], the bounds being
    dates.  On a time axis that is not in increasing order pandas refuses
    a slice between dates that are not labels of the axis, and the end of
    the last day never is: a [KeyError]. *)
Definition time_slice_locs (first last : Z) (time : list Z) : option (nat * nat) :=
  if is_monotonic Z.le time
  then Some (searchsorted_left Z.lt first time, searchsorted_right Z.le last time)
  else None.

Definition sel_time (first last : Z) (c : cube) : option cube :=
  locs ← time_slice_locs first last (c_time c);
  Some (mkCube (slice locs (c_time c)) (c_lat c) (c_lon c) (slice locs (c_val c))).

(** The positions of a label on an axis, and the run [p, p+1, ..., q-1]
    they form, as [(p, q)], when they form one. *)
Definition occurrences (x : R) (labels : list R) : list nat :=
  (filter (λ p : nat * R, p.2 = x) (imap pair labels)).*1.

Definition run_of (positions : list nat) : option (nat * nat) :=
  match positions with
  | [] => None
  | p :: _ =>
    if decide (positions = seq p (length positions))
    then Some (p, (p + length positions)%nat)
    else None
  end.

(** The positions of [a.sel(lat=slice(lo, hi))] on an axis of numbers.  On
    an axis in decreasing order the search runs on the reversed axis: the
    start is the number of labels above [lo], the stop the number of labels
    down to [hi].  On an axis in no order both bounds must be labels of the
    axis (otherwise a [KeyError]), and the slice runs from the position of
    [lo] to the position of [hi]. *)
Definition slice_locs (lo hi : R) (labels : list R) : option (nat * nat) :=
  if is_monotonic Rle labels then
    Some (searchsorted_left Rlt lo labels, searchsorted_right Rle hi labels)
  else if is_monotonic Rle (reverse labels) then
    Some (length (filter (λ y, lo < y) labels), length (filter (λ y, hi <= y) labels))
  else
    start ← run_of (occurrences lo labels);
    stop ← run_of (occurrences hi labels);
    Some (start.1, stop.2).

(** [a.sel(lon=slice(lon0, lon1), lat=slice(lat0, lat1))] *)
Definition sel_box (lon0 lon1 lat0 lat1 : R) (f : field) : option field :=
  lats ← slice_locs lat0 lat1 (f_lat f);
  lons ← slice_locs lon0 lon1 (f_lon f);
  Some (mkField (slice lats (f_lat f)) (slice lons (f_lon f))
          ((λ row : list R, slice lons row) <$> slice lats (f_val f))).

Definition cube_sel_box (lon0 lon1 lat0 lat1 : R) (c : cube) : option cube :=
  lats ← slice_locs lat0 lat1 (c_lat c);
  lons ← slice_locs lon0 lon1 (c_lon c);
  Some (mkCube (c_time c) (slice lats (c_lat c)) (slice lons (c_lon c))
          ((λ v : list (list R), (λ row : list R, slice lons row) <$> slice lats v)
             <$> c_val c)).

(** [a.mean(dim='time')]: at every cell the mean over the time steps. *)
Definition mean_time (c : cube) : option field :=
  match c_time c with
  | [] => None
  | _ :: _ =>
    Some (mkField (c_lat c) (c_lon c)
            (imap (λ i _, imap (λ j _,
               Rsum (omap (λ v, cell v i j) (c_val c)) / INR (length (c_time c)))
               (c_lon c)) (c_lat c)))
  end.

(** [a.mean(dim='lon')]. *)
Definition mean_lon (f : field) : option zonal :=
  vals ← mapM mean (f_val f);
  Some (mkZonal (f_lat f) vals).

(** [a.weighted(w).mean(dim=['lon', 'lat'])] of a two-dimensional array
    with weights along the latitude: the weights are aligned with the array
    and broadcast along the longitude; the weighted sum is divided by the
    sum of the weights, and is not a number when that sum is zero. *)
Definition weighted_mean (w : zonal) (f : field) : option R :=
  lat ← align_axis (f_lat f) (z_lat w);
  let rows := reindex (f_lat f) (f_val f) lat in
  let ws := reindex (z_lat w) (z_val w) lat in
  let weighted_sum := Rsum (zip_with (λ wi row, Rsum ((λ x, x * wi) <$> row)) ws rows) in
  let sum_of_weights := Rsum (zip_with (λ wi row, Rsum ((λ _, wi) <$> row)) ws rows) in
  if decide (sum_of_weights = 0) then None
  else Some (weighted_sum / sum_of_weights).

(** The same reduction on every time step. *)
Definition weighted_mean_cube (w : zonal) (c : cube) : list (option R) :=
  (λ v, weighted_mean w (mkField (c_lat c) (c_lon c) v)) <$> c_val c.

End Xr.

(* ===================================================================== *)
(** ** Notebook 1: data analysis                                          *)
(* ===================================================================== *)

Module DataAnalysis.

Import Xr.
#[local] Open Scope R_scope.

(** [area_weights = np.cos(np.deg2rad(data.lat))] *)
Definition area_weights (data : dataset) : zonal :=
  zmap cos (zmap deg2rad (lat_coord (d_lat data))).

(** [data['tas'].weighted(area_weights).mean(dim=['lon', 'lat'])], the
    spatial mean of the cell that defines [weighted_mean]; one value per
    time step (the yearly resampling that follows is not modelled). *)
Definition weighted_mean (data : dataset) : option (list (option R)) :=
  tas ← getitem data "tas";
  Some (weighted_mean_cube (area_weights data) tas).

(** [era5['tas'].weighted(area_weights).mean(dim=['lon', 'lat'])]: the
    weights still come from the latitudes of [data]. *)
Definition era5_mean (data era5 : dataset) : option (list (option R)) :=
  tas ← getitem era5 "tas";
  Some (weighted_mean_cube (area_weights data) tas).

(** [clim = data['tas'].sel(time=slice('1980-01-01', '2009-12-31'))
             .mean(dim='time')] *)
Definition clim (data : dataset) : option field :=
  tas ← getitem data "tas";
  selected ← sel_time 19800101 20091231 tas;
  mean_time selected.

(** [italy = data['tas'].sel(lon=slice(5,20),lat=slice(35,50))
              .mean(dim='time')] *)
Definition italy (data : dataset) : option field :=
  tas ← getitem data "tas";
  box ← cube_sel_box 5 20 35 50 tas;
  mean_time box.

End DataAnalysis.

(* ===================================================================== *)
(** ** Notebook 2: radiation budget                                       *)
(* ===================================================================== *)

Module Radiation.

Import Xr.
#[local] Open Scope R_scope.

(** [net_toa = dataset['rsdt']-dataset['rlut']-dataset['rsut']] *)
Definition net_toa (dataset : dataset) : option cube :=
  rsdt ← getitem dataset "rsdt";
  rlut ← getitem dataset "rlut";
  rsut ← getitem dataset "rsut";
  d ← cube_binop Rminus rsdt rlut;
  cube_binop Rminus d rsut.

(** [toa_clim = net_toa.mean(dim='time').compute()] *)
Definition toa_clim (dataset : dataset) : option field :=
  net ← net_toa dataset;
  mean_time net.

(** [zonal_toa = toa_clim.mean(dim='lon')] *)
Definition zonal_toa (dataset : dataset) : option zonal :=
  clim ← toa_clim dataset;
  mean_lon clim.

Definition Earth : R := 6370000.

(** [dlat = math.pi*Earth/len(zonal_toa.lat)]; Python raises
    [ZeroDivisionError] on an empty axis. *)
Definition dlat (zonal_toa : zonal) : option R :=
  match length (z_lat zonal_toa) with
  | O => None
  | S _ => Some (PI * Earth / INR (length (z_lat zonal_toa)))
  end.

(** [dlon = 2*math.pi*Earth*np.cos(np.deg2rad(zonal_toa.lat))] *)
Definition dlon (zonal_toa : zonal) : zonal :=
  zmap (λ c, 2 * PI * Earth * c)
       (zmap cos (zmap deg2rad (lat_coord (z_lat zonal_toa)))).

(** [global_transport =
      (np.cumsum(zonal_toa-zonal_toa.mean()))*dlon*dlat/10**15] *)
Definition global_transport (zonal_toa : zonal) : option zonal :=
  m ← mean (z_val zonal_toa);
  dlat ← dlat zonal_toa;
  let anomaly := zmap (λ x, x - m) zonal_toa in
  let running := mkZonal (z_lat anomaly) (cumsum (z_val anomaly)) in
  scaled ← zonal_binop Rmult running (dlon zonal_toa);
  Some (zmap (λ x, x / 10 ^ 15) (zmap (λ x, x * dlat) scaled)).

(** [area_weights = np.cos(np.deg2rad(net_toa.lat))] *)
Definition area_weights (net_toa : cube) : zonal :=
  zmap cos (zmap deg2rad (lat_coord (c_lat net_toa))).

(** [net_toa.weighted(area_weights).mean(dim=['lon','lat'])] *)
Definition net_toa_series (dataset : dataset) : option (list (option R)) :=
  net ← net_toa dataset;
  Some (weighted_mean_cube (area_weights net) net).

(** A cloud radiative forcing over a period:
    [(dataset[clear]-dataset[allsky]).sel(time=slice(first, last))
       .mean(dim='time')] *)
Definition crf (clear allsky : string) (first last : Z) (dataset : dataset) : option field :=
  cs ← getitem dataset clear;
  al ← getitem dataset allsky;
  d ← cube_binop Rminus cs al;
  selected ← sel_time first last d;
  mean_time selected.

(** [long_crf] and [short_crf], over the period of the notebook,
    2010-01-01 to 2014-12-31. *)
Definition long_crf (dataset : dataset) : option field :=
  crf "rlutcs" "rlut" 20100101 20141231 dataset.

Definition short_crf (dataset : dataset) : option field :=
  crf "rsutcs" "rsut" 20100101 20141231 dataset.

(** [right_ece], [right_ceres] and [bias = right_ece - right_ceres] *)
Definition right_ece (dataset : dataset) : option field :=
  net ← net_toa dataset;
  selected ← sel_time 20010101 20141231 net;
  mean_time selected.

Definition right_ceres (ceres : dataset) : option field :=
  toa ← getitem ceres "toa_net_all_mon";
  selected ← sel_time 20010101 20141231 toa;
  mean_time selected.

Definition bias (right_ece right_ceres : field) : option field :=
  field_binop Rminus right_ece right_ceres.

(** [bias.weighted(area_weights).mean()] *)
Definition bias_mean (area_weights : zonal) (bias : field) : option R :=
  Xr.weighted_mean area_weights bias.

End Radiation.

(** *** The heat transport as the text of the notebook describes it

    The integral of the net radiation from the South Pole northward: at a
    latitude, the sum of the anomalies at all latitudes up to it, times the
    area element [dlon * dlat] there, in petawatt. *)

Module RadiationSpec.

Import Xr.
#[local] Open Scope R_scope.

Definition area_element (n : nat) (φ : R) : R :=
  (2 * PI * 6370000 * cos (deg2rad φ)) * (PI * 6370000 / INR n).

Definition transport_from_south (zonal_toa : zonal) : list R :=
  let n := length (z_lat zonal_toa) in
  let m := Rsum (z_val zonal_toa) / INR n in
  let cells := zip (z_lat zonal_toa) (z_val zonal_toa) in
  (λ φ, Rsum ((λ c, c.2 - m) <$> filter (λ c, c.1 <= φ) cells)
          * area_element n φ / 10 ^ 15) <$> z_lat zonal_toa.

(** The same sum taken along the stored axis: at position [i] the sum of
    the anomalies at positions [0..i]. *)
Definition transport_along_axis (zonal_toa : zonal) : list R :=
  let n := length (z_lat zonal_toa) in
  let m := Rsum (z_val zonal_toa) / INR n in
  imap (λ i φ, Rsum (take (S i) ((λ x, x - m) <$> z_val zonal_toa))
                 * area_element n φ / 10 ^ 15) (z_lat zonal_toa).

End RadiationSpec.

(** *** Area weighting as the glossary describes it

    Every grid cell contributes to a spatial average in proportion to the
    cosine of its latitude. *)

Module WeightingSpec.

Import Xr.
#[local] Open Scope R_scope.

(** The cells of a grid, each with its latitude. *)
Definition cells (lat : list R) (v : list (list R)) : list (R * R) :=
  mjoin (zip_with (λ φ row, (λ x, (φ, x)) <$> row) lat v).

(** The cosine of a latitude given in degrees. *)
Definition cos_lat (φ : R) : R := cos (φ * PI / 180).

Definition cos_weighted_sum (lat : list R) (v : list (list R)) : R :=
  Rsum ((λ c, cos_lat c.1 * c.2) <$> cells lat v).

Definition cos_weight_total (lat : list R) (v : list (list R)) : R :=
  Rsum ((λ c, cos_lat c.1) <$> cells lat v).

Definition cos_weighted_mean (lat : list R) (v : list (list R)) : R :=
  cos_weighted_sum lat v / cos_weight_total lat v.

End WeightingSpec.

(** *** Cloud radiative forcing as the glossary describes it

    Clear-sky minus all-sky flux, averaged over the time steps of the
    period. *)

Module ForcingSpec.

Import Xr.
#[local] Open Scope R_scope.

(** The time steps of a variable whose date lies in the period. *)
Definition selected {A : Type} (first last : Z) (time : list Z) (v : list A) : list A :=
  (filter (λ p : Z * A, (first ≤ p.1 ∧ p.1 ≤ last)%Z) (zip time v)).*2.

(** The value of a cell of one time step. *)
Definition value (v : list (list R)) (i j : nat) : R := default 0 (cell v i j).

(** The mean over the period of clear-sky minus all-sky, at a cell. *)
Definition mean_difference (first last : Z) (time : list Z)
    (clear allsky : list (list (list R))) (i j : nat) : R :=
  Rsum (zip_with (λ a b, value a i j - value b i j)
          (selected first last time clear) (selected first last time allsky))
  / INR (length (selected first last time clear)).

(** What the forcing is said to be: nothing when the period selects no time
    step, and otherwise a field on the grid of the dataset whose every cell
    is the mean over the period of clear-sky minus all-sky. *)
Definition is_mean_difference (result : option field) (first last : Z)
    (ds : dataset) (clear allsky : list (list (list R))) : Prop :=
  match selected first last (d_time ds) clear with
  | [] => result = None
  | _ :: _ =>
    ∃ f, result = Some f ∧ f_lat f = d_lat ds ∧ f_lon f = d_lon ds ∧
      ∀ i j, (i < length (d_lat ds))%nat → (j < length (d_lon ds))%nat →
        cell (f_val f) i j
        = Some (mean_difference first last (d_time ds) clear allsky i j)
  end.

End ForcingSpec.

(* ===================================================================== *)
(** ** The notebook kernel: objects, figures, effects                     *)
(* ===================================================================== *)

(** Python variables name objects; an operation on arrays reads its
    operands and returns an object.  The kernel holds the objects in a heap
    and the figures drawn so far; a cell is a computation on that state,
    and a Python exception ends it ([None]). *)

Module Kernel.

Import Xr.
#[local] Open Scope R_scope.

Definition loc : Type := positive.

Inductive array : Type :=
| Cube (c : cube)
| Field (f : field)
| Zonal (z : zonal)
| Series (s : list (option R))
| Scalar (x : option R).

Record DataArray : Type := mkDataArray {
  name : option string;
  values : array
}.

(** What [DataArray.plot] draws, by the number of dimensions of the data:
    a line, a colour mesh (a map), or a histogram. *)
Inductive plot_kind : Type :=
| Line
| Mesh
| Hist.

(** What a [plot] call leaves on a panel: the object drawn, its values at
    the time of the call, how they are drawn, and the colour options. *)
Record artist : Type := mkArtist {
  source : loc;
  drawn : array;
  kind : plot_kind;
  vmin : option R;
  vmax : option R;
  cmap : option string
}.

Record axes : Type := mkAxes {
  artists : list artist;
  title : option string;
  coastlines : bool
}.

Definition empty_axes : axes := mkAxes [] None false.

Record kernel : Type := mkKernel {
  heap : gmap loc DataArray;
  figures : list (list axes)
}.

Definition M (A : Type) : Type := kernel → option (A * kernel).

Definition ret {A : Type} (a : A) : M A := λ k, Some (a, k).

Definition bind {A B : Type} (m : M A) (f : A → M B) : M B :=
  λ k, match m k with
       | Some (a, k') => f a k'
       | None => None
       end.

Definition lift {A : Type} (o : option A) : M A :=
  λ k, match o with
       | Some a => Some (a, k)
       | None => None
       end.

#[global] Instance M_ret : MRet M := @ret.
#[global] Instance M_bind : MBind M := λ A B f m, bind m f.

(** A new object, at an address no object has. *)
Definition new (a : DataArray) : M loc :=
  λ k, let l := fresh (dom (heap k)) in
       Some (l, mkKernel (<[l := a]> (heap k)) (figures k)).

Definition get (l : loc) : M DataArray :=
  λ k, match heap k !! l with
       | Some a => Some (a, k)
       | None => None
       end.

(** Assignment into an existing object, as the augmented assignments
    ([a -= b]) and item assignments of Python do. *)
Definition put (l : loc) (a : DataArray) : M unit :=
  λ k, match heap k !! l with
       | Some _ => Some (tt, mkKernel (<[l := a]> (heap k)) (figures k))
       | None => None
       end.

(** Every object of [k] is in [k'], as it was. *)
Definition unchanged (k k' : kernel) : Prop :=
  ∀ l a, heap k !! l = Some a → heap k' !! l = Some a.

(** A computation that leaves every object it finds as it was. *)
Definition preserves {A : Type} (m : M A) : Prop :=
  ∀ k a k', m k = Some (a, k') → unchanged k k'.

(** A computation whose result is an object that did not exist before. *)
Definition allocates (m : M loc) : Prop :=
  ∀ k l k', m k = Some (l, k') → (l ∉ dom (heap k)) ∧ is_Some (heap k' !! l).

(** *** Operations on arrays *)

(** The name of the result of arithmetic: kept when both operands agree. *)
Definition result_name (a b : DataArray) : option string :=
  if decide (name a = name b) then name a else None.

(** Arithmetic, for operands of the same dimensions. *)
Definition array_binop (op : R → R → R) (x y : array) : option array :=
  match x, y with
  | Cube a, Cube b => Cube <$> cube_binop op a b
  | Field a, Field b => Field <$> field_binop op a b
  | Zonal a, Zonal b => Zonal <$> zonal_binop op a b
  | _, _ => None
  end.

Definition binary (op : R → R → R) (l1 l2 : loc) : M loc :=
  a ← get l1;
  b ← get l2;
  v ← lift (array_binop op (values a) (values b));
  new (mkDataArray (result_name a b) v).

(** [a - b] *)
Definition sub (l1 l2 : loc) : M loc := binary Rminus l1 l2.

(** [a -= b]: the same difference, stored into [a].  No cell of the
    notebooks does this. *)
Definition isub (l1 l2 : loc) : M unit :=
  a ← get l1;
  b ← get l2;
  v ← lift (array_binop Rminus (values a) (values b));
  put l1 (mkDataArray (name a) v).

(** The transformations the notebooks apply to one array. *)
Inductive transformation : Type :=
| SelTime (first last : Z)     (* .sel(time=slice(first, last)) *)
| SelBox (lon0 lon1 lat0 lat1 : R)
                               (* .sel(lon=slice(..), lat=slice(..)) *)
| Times (k : R)                (* a * k, a change of unit *)
| MeanTime                     (* .mean(dim='time') *)
| MeanLon                      (* .mean(dim='lon') *)
| WeightedMean (w : zonal)     (* .weighted(w).mean(dim=['lon', 'lat']) *)
| Cumsum.                      (* np.cumsum(a) *)

Definition scale_rows (k : R) (v : list (list R)) : list (list R) :=
  (λ row : list R, (λ x, x * k) <$> row) <$> v.

Definition transformed (t : transformation) (x : array) : option array :=
  match t, x with
  | SelTime first last, Cube c => Cube <$> sel_time first last c
  | SelBox lon0 lon1 lat0 lat1, Cube c =>
    Cube <$> cube_sel_box lon0 lon1 lat0 lat1 c
  | SelBox lon0 lon1 lat0 lat1, Field f =>
    Field <$> sel_box lon0 lon1 lat0 lat1 f
  | Times k, Cube c =>
    Some (Cube (mkCube (c_time c) (c_lat c) (c_lon c) (scale_rows k <$> c_val c)))
  | Times k, Field f =>
    Some (Field (mkField (f_lat f) (f_lon f) (scale_rows k (f_val f))))
  | Times k, Zonal z => Some (Zonal (zmap (λ x, x * k) z))
  | MeanTime, Cube c => Field <$> mean_time c
  | MeanLon, Field f => Zonal <$> mean_lon f
  | WeightedMean w, Cube c => Some (Series (weighted_mean_cube w c))
  | WeightedMean w, Field f => Some (Scalar (weighted_mean w f))
  | Cumsum, Zonal z => Some (Zonal (mkZonal (z_lat z) (cumsum (z_val z))))
  | _, _ => None
  end.

Definition transform (t : transformation) (l : loc) : M loc :=
  a ← get l;
  v ← lift (transformed t (values a));
  new (mkDataArray (name a) v).

(** *** Figures *)

(** [plt.subplots(n, 1, ...)]: a new figure with [n] empty panels. *)
Definition subplots (n : nat) : M nat :=
  λ k, Some (length (figures k),
             mkKernel (heap k) (figures k ++ [replicate n empty_axes])).

(** A change to panel [ax] of figure [fig]; an index out of range is an
    [IndexError]. *)
Definition on_axes (fig ax : nat) (g : axes → axes) : M unit :=
  λ k, match figures k !! fig ≫= λ panels, panels !! ax with
       | Some _ =>
         Some (tt, mkKernel (heap k) (alter (alter g ax) fig (figures k)))
       | None => None
       end.

(** The lengths of the dimensions of an array. *)
Definition shape (x : array) : list nat :=
  match x with
  | Cube c => [length (c_time c); length (c_lat c); length (c_lon c)]
  | Field f => [length (f_lat f); length (f_lon f)]
  | Zonal z => [length (z_lat z)]
  | Series s => [length s]
  | Scalar _ => []
  end.

(** [DataArray.plot] first drops the dimensions of length one
    ([squeeze]).  Without a dimension left, or without any value, it
    raises [TypeError: No numeric data to plot]; otherwise one dimension is
    drawn as a line, two as a colour mesh, more as a histogram. *)
Definition plotfunc (x : array) : option plot_kind :=
  let dims := filter (λ n, n ≠ 1%nat) (shape x) in
  if decide (dims = [] ∨ 0%nat ∈ dims) then None
  else match dims with
       | [_] => Some Line
       | [_; _] => Some Mesh
       | _ => Some Hist
       end.

(** The keyword arguments of the [plot] calls of the notebooks. *)
Inductive keyword : Type :=
| Vmin (x : option R)
| Vmax (x : option R)
| Cmap (s : string).

Definition vmin_of (kws : list keyword) : option R :=
  foldr (λ kw rest, match kw with Vmin x => x | _ => rest end) None kws.

Definition vmax_of (kws : list keyword) : option R :=
  foldr (λ kw rest, match kw with Vmax x => x | _ => rest end) None kws.

Definition cmap_of (kws : list keyword) : option string :=
  foldr (λ kw rest, match kw with Cmap s => Some s | _ => rest end) None kws.

(** [a.plot(ax=axs[ax], **kws)].  A colour mesh takes [vmin], [vmax] and
    [cmap]; a line and a histogram hand every keyword to matplotlib, which
    knows none of the three there and raises [AttributeError], also when
    the value given is [None]. *)
Definition plot (l : loc) (fig ax : nat) (kws : list keyword) : M unit :=
  a ← get l;
  how ← lift (plotfunc (values a));
  match how, kws with
  | Mesh, _ | _, [] =>
    on_axes fig ax (λ x,
      mkAxes (artists x ++ [mkArtist l (values a) how (vmin_of kws) (vmax_of kws)
                              (cmap_of kws)])
             (title x) (coastlines x))
  | _, _ :: _ => lift None
  end.

(** [axs[ax].set_title(s)] *)
Definition set_title (fig ax : nat) (s : option string) : M unit :=
  on_axes fig ax (λ x, mkAxes (artists x) s (coastlines x)).

(** [axs[ax].coastlines()] *)
Definition add_coastlines (fig ax : nat) : M unit :=
  on_axes fig ax (λ x, mkAxes (artists x) (title x) true).

(** *** Cells of the notebooks, on the kernel *)

(** Notebook 3:
[[
def compare_plot(field1, field2, vmin=None, vmax=None):
    fig, axs = plt.subplots(2,1, figsize=(10,10), subplot_kw=...)
    field1.plot(ax=axs[0],vmin=vmin, vmax=vmax)
    axs[0].set_title(field1.name)
    axs[0].coastlines()
    (field1-field2).plot(ax=axs[1],cmap='seismic')
    axs[1].set_title('DELTA')
    axs[1].coastlines()
]]
    (the three lines that would draw [field2] are commented out in the
    source). *)
Definition compare_plot (field1 field2 : loc) (lo hi : option R) : M unit :=
  fig ← subplots 2;
  plot field1 fig 0 [Vmin lo; Vmax hi] ;;
  f1 ← get field1;
  set_title fig 0 (name f1) ;;
  add_coastlines fig 0 ;;
  delta ← sub field1 field2;
  plot delta fig 1 [Cmap "seismic"] ;;
  set_title fig 1 (Some "DELTA"%string) ;;
  add_coastlines fig 1.

(** Notebook 3, the precipitation figure:
[[
fig, axs = plt.subplots(3,1, figsize=(15,10), subplot_kw=...)
(lgm['pr']*86400).plot(ax=axs[0],vmax=15)
axs[0].set_title('LGM')
axs[0].coastlines()
(historical['pr']*86400).plot(ax=axs[1],vmax=15)
axs[1].set_title('historical')
axs[1].coastlines()
((historical['pr']-lgm['pr'])*86400).plot(ax=axs[2])
axs[2].set_title('DELTA')
axs[2].coastlines()
]] *)
Definition precipitation_figure (lgm_pr historical_pr : loc) : M unit :=
  fig ← subplots 3;
  a ← transform (Times 86400) lgm_pr;
  plot a fig 0 [Vmax (Some 15)] ;;
  set_title fig 0 (Some "LGM"%string) ;;
  add_coastlines fig 0 ;;
  b ← transform (Times 86400) historical_pr;
  plot b fig 1 [Vmax (Some 15)] ;;
  set_title fig 1 (Some "historical"%string) ;;
  add_coastlines fig 1 ;;
  d ← sub historical_pr lgm_pr;
  e ← transform (Times 86400) d;
  plot e fig 2 [] ;;
  set_title fig 2 (Some "DELTA"%string) ;;
  add_coastlines fig 2.

(** Notebook 2: [net_toa = dataset['rsdt']-dataset['rlut']-dataset['rsut']],
    the dataset naming the objects of its variables. *)
Definition net_toa (dataset : gmap string loc) : M loc :=
  rsdt ← lift (dataset !! "rsdt"%string);
  rlut ← lift (dataset !! "rlut"%string);
  rsut ← lift (dataset !! "rsut"%string);
  d ← sub rsdt rlut;
  sub d rsut.

End Kernel.

(* ===================================================================== *)
(** ** The data files                                                     *)
(* ===================================================================== *)

(** The calls of xarray that touch files, run against a directory.  Reading
    and writing NetCDF, matching file names and merging are the library's:
    they are parameters here. *)

Module Files.

Import Xr.

Inductive call : Type :=
| OpenDataset (path : string)          (* xr.open_dataset(path) *)
| OpenMfdataset (pattern : string)     (* xr.open_mfdataset(pattern, ...) *)
| Merge (i j : nat)                    (* xr.merge([a, b]), by position *)
| ToNetcdf (path : string).            (* ds.to_netcdf(path) *)

(** The directory, and the datasets opened so far, the latest first. *)
Record state : Type := mkState {
  files : gmap string Shell.content;
  opened : list dataset
}.

Section Library.
Variable decode : Shell.content → option dataset.
Variable encode : dataset → Shell.content.
Variable matches : string → string → bool.
Variable combine : list dataset → option dataset.

Definition read (st : state) (path : string) : option dataset :=
  files st !! path ≫= decode.

(** One call; [None] is an exception. *)
Definition exec (c : call) (st : state) : option state :=
  match c with
  | OpenDataset path =>
    ds ← read st path;
    Some (mkState (files st) (ds :: opened st))
  | OpenMfdataset pattern =>
    let paths := filter (λ p, matches pattern p = true) (map_to_list (files st)).*1 in
    parts ← mapM (read st) paths;
    ds ← combine parts;
    Some (mkState (files st) (ds :: opened st))
  | Merge i j =>
    a ← opened st !! i;
    b ← opened st !! j;
    ds ← combine [a; b];
    Some (mkState (files st) (ds :: opened st))
  | ToNetcdf path =>
    match opened st with
    | ds :: _ => Some (mkState (<[path := encode ds]> (files st)) (opened st))
    | [] => None
    end
  end.

(** The calls of a notebook in order; an exception stops the run. *)
Fixpoint run (calls : list call) (st : state) : state :=
  match calls with
  | [] => st
  | c :: rest =>
    match exec c st with
    | Some st' => run rest st'
    | None => st
    end
  end.

End Library.

Definition writes (c : call) : bool :=
  match c with
  | ToNetcdf _ => true
  | _ => false
  end.

(** The file calls of the three notebooks. *)
Definition data_analysis : list call :=
  [ OpenDataset "ussp/tas_EC-Earth3_historical_r1p1if1_1850-2014.nc";
    OpenMfdataset "ussp/tas_ERA5_1940-2022.nc" ].

Definition radiation : list call :=
  [ OpenMfdataset "ussp/r*EC-Earth*.nc";
    OpenMfdataset "ussp/clt*EC-Earth*.nc";
    OpenDataset "ussp/CERES-2020-2022.nc";
    OpenMfdataset "ussp/h*EC-Earth*.nc";
    Merge 0 3 ].

Definition paleoclimate : list call :=
  [ OpenMfdataset "ussp/*AWI*historical*.nc";
    OpenMfdataset "ussp/*AWI*lgm*.nc";
    OpenMfdataset "ussp/*AWI*lig*.nc" ].

Definition notebooks : list (list call) :=
  [data_analysis; radiation; paleoclimate].

End Files.

(* ===================================================================== *)
(** ** Deferred arrays                                                    *)
(* ===================================================================== *)

(** [open_mfdataset] reads the names and coordinates of the variables and
    leaves their values in the files.  An operation on such an array is
    recorded in a graph; the graph runs, reading the files as they are
    then, when the values are needed: at [.compute()], or at the first use,
    such as a plot.  How dask splits and schedules the work is not
    modelled: a graph is run by the operations it records. *)

Module Dask.

Import Xr.
#[local] Open Scope R_scope.

Inductive graph : Type :=
| Read (pattern name : string)   (* a variable of the files that match *)
| Const (v : Kernel.array)       (* values already in memory *)
| Minus (a b : graph)
| MeanTime (a : graph).

Inductive darray : Type :=
| Deferred (g : graph)
| InMemory (v : Kernel.array).

(** A dataset opened by [open_mfdataset]: the pattern of its files and the
    names of its variables. *)
Record lazy_dataset : Type := mkLazy {
  pattern : string;
  names : list string
}.

(** What a session of the notebook does, in order: which cell ran a graph,
    and which cell drew which values. *)
Inductive event : Type :=
| Evaluated (cell : string)
| Drawn (cell : string) (v : Kernel.array).

Record state : Type := mkState {
  store : Files.state;
  log : list event
}.

Definition session (A : Type) : Type := state → option (A * state).

#[global] Instance session_ret : MRet session := λ A a st, Some (a, st).
#[global] Instance session_bind : MBind session :=
  λ A B f m st, match m st with
                | Some (a, st') => f a st'
                | None => None
                end.

Definition lift {A : Type} (o : option A) : session A :=
  λ st, match o with
        | Some a => Some (a, st)
        | None => None
        end.

Definition record (e : event) : session unit :=
  λ st, Some (tt, mkState (store st) (log st ++ [e])).

(** [a - b] and [a.mean(dim='time')]: run at once when the values are in
    memory, recorded otherwise. *)
Definition as_graph (x : darray) : graph :=
  match x with
  | Deferred g => g
  | InMemory v => Const v
  end.

Definition minus (a b : darray) : option darray :=
  match a, b with
  | InMemory (Kernel.Cube x), InMemory (Kernel.Cube y) =>
    InMemory ∘ Kernel.Cube <$> cube_binop Rminus x y
  | InMemory _, InMemory _ => None
  | _, _ => Some (Deferred (Minus (as_graph a) (as_graph b)))
  end.

Definition mean_time (a : darray) : option darray :=
  match a with
  | InMemory (Kernel.Cube x) => InMemory ∘ Kernel.Field <$> Xr.mean_time x
  | InMemory _ => None
  | Deferred g => Some (Deferred (MeanTime g))
  end.

(** [dataset[name]]; a missing variable is a [KeyError]. *)
Definition getitem (dataset : lazy_dataset) (name : string) : option darray :=
  if decide (name ∈ names dataset) then Some (Deferred (Read (pattern dataset) name))
  else None.

(** [net_toa = dataset['rsdt']-dataset['rlut']-dataset['rsut']] *)
Definition net_toa (dataset : lazy_dataset) : option darray :=
  rsdt ← getitem dataset "rsdt";
  rlut ← getitem dataset "rlut";
  rsut ← getitem dataset "rsut";
  d ← minus rsdt rlut;
  minus d rsut.

Section Library.
Variable decode : Shell.content → option dataset.
Variable encode : dataset → Shell.content.
Variable matches : string → string → bool.
Variable combine : list dataset → option dataset.

(** The dataset that the files matching a pattern hold. *)
Definition dataset_of (files : gmap string Shell.content) (pattern : string) :
    option dataset :=
  st ← Files.exec decode encode matches combine (Files.OpenMfdataset pattern)
         (Files.mkState files []);
  head (Files.opened st).

(** Running a graph on the files. *)
Fixpoint evaluate (files : gmap string Shell.content) (g : graph) :
    option Kernel.array :=
  match g with
  | Read pattern name =>
    ds ← dataset_of files pattern;
    Kernel.Cube <$> Xr.getitem ds name
  | Const v => Some v
  | Minus a b =>
    match evaluate files a, evaluate files b with
    | Some (Kernel.Cube x), Some (Kernel.Cube y) =>
      Kernel.Cube <$> cube_binop Rminus x y
    | _, _ => None
    end
  | MeanTime a =>
    match evaluate files a with
    | Some (Kernel.Cube x) => Kernel.Field <$> Xr.mean_time x
    | _ => None
    end
  end.

(** [xr.open_mfdataset(pattern, ...)] *)
Definition open_mfdataset (pattern : string) : session lazy_dataset :=
  λ st,
    ds ← dataset_of (Files.files (store st)) pattern;
    Some (mkLazy pattern (map_to_list (d_vars ds)).*1, st).

(** The values of an array, needed by [cell]. *)
Definition values_at (cell : string) (x : darray) : session Kernel.array :=
  match x with
  | InMemory v => mret v
  | Deferred g =>
    λ st, v ← evaluate (Files.files (store st)) g;
          Some (v, mkState (store st) (log st ++ [Evaluated cell]))
  end.

(** [x.compute()] *)
Definition compute (cell : string) (x : darray) : session darray :=
  v ← values_at cell x; mret (InMemory v).

(** [x.plot()] *)
Definition plot (cell : string) (x : darray) : session unit :=
  v ← values_at cell x; record (Drawn cell v).

(** Other cells of the notebooks that call on files, run in between. *)
Definition file_calls (calls : list Files.call) : session unit :=
  λ st, Some (tt, mkState (Files.run decode encode matches combine calls (store st))
                          (log st)).

(** The cells as the notebook has them:
[[
dataset = xr.open_mfdataset('ussp/r*EC-Earth*.nc', ...)
net_toa = dataset['rsdt']-dataset['rlut']-dataset['rsut']
toa_clim = net_toa.mean(dim='time').compute()
toa_clim.plot()
]] *)
Definition materialized (between : list Files.call) : session unit :=
  dataset ← open_mfdataset "ussp/r*EC-Earth*.nc";
  net ← lift (net_toa dataset);
  clim ← lift (mean_time net);
  toa_clim ← compute "toa_clim" clim;
  file_calls between ;;
  plot "toa_clim.plot" toa_clim.

End Library.

End Dask.

(** *** Evaluation on first use, as the text describes it

    The same cells without [.compute()]: the reduction is evaluated on
    first use, at plot time. *)

Module FirstUseSpec.

Section Library.
Variable decode : Shell.content → option Xr.dataset.
Variable encode : Xr.dataset → Shell.content.
Variable matches : string → string → bool.
Variable combine : list Xr.dataset → option Xr.dataset.

Definition on_first_use (between : list Files.call) : Dask.session unit :=
  dataset ← Dask.open_mfdataset decode encode matches combine "ussp/r*EC-Earth*.nc";
  net ← Dask.lift (Dask.net_toa dataset);
  toa_clim ← Dask.lift (Dask.mean_time net);
  Dask.file_calls decode encode matches combine between ;;
  Dask.plot decode encode matches combine "toa_clim.plot" toa_clim.

End Library.

End FirstUseSpec.

(* ===================================================================== *)
(** ** Small inputs the properties are tried on                          *)
(* ===================================================================== *)

Module Samples.

Import Xr.
#[local] Open Scope R_scope.

(** One time step of temperature on a grid of two latitudes (the equator
    and 60 degrees north) and two longitudes. *)
Definition two_bands_tas : dataset :=
  mkDataset [20000101%Z] [0; 60] [0; 180] {[ "tas"%string := [[[1; 3]; [5; 7]]] ]}.

(** One time step of observed temperature on the same grid. *)
Definition era5_two_bands : dataset :=
  mkDataset [20000101%Z] [0; 60] [0; 180] {[ "tas"%string := [[[2; 2]; [4; 4]]] ]}.

(** Four years of clear-sky and all-sky fluxes, longwave and shortwave,
    on two latitudes and one longitude; the first and the last year lie
    outside the period of the notebook. *)
Definition four_years : dataset :=
  mkDataset [20090116%Z; 20100116%Z; 20110116%Z; 20150116%Z] [0; 60] [0]
    (<[ "rlutcs"%string := [[[9]; [9]]; [[5]; [6]]; [[7]; [8]]; [[9]; [9]]] ]>
    (<[ "rlut"%string := [[[0]; [0]]; [[1]; [3]]; [[2]; [2]]; [[0]; [0]]] ]>
    (<[ "rsutcs"%string := [[[9]; [9]]; [[3]; [3]]; [[4]; [2]]; [[9]; [9]]] ]>
    {[ "rsut"%string := [[[0]; [0]]; [[6]; [5]]; [[8]; [7]]; [[0]; [0]]] ]}))).

(** A kernel holding the three fluxes at the top of the atmosphere, one
    time step on a one-cell grid, and the dataset that names them. *)
Definition toa_kernel : Kernel.kernel :=
  Kernel.mkKernel
    (<[ 1%positive := Kernel.mkDataArray (Some "rsdt"%string)
                        (Kernel.Cube (mkCube [20000101%Z] [0] [0] [[[340]]])) ]>
    (<[ 2%positive := Kernel.mkDataArray (Some "rlut"%string)
                        (Kernel.Cube (mkCube [20000101%Z] [0] [0] [[[240]]])) ]>
    {[ 3%positive := Kernel.mkDataArray (Some "rsut"%string)
                        (Kernel.Cube (mkCube [20000101%Z] [0] [0] [[[100]]])) ]}))
    [].

Definition toa_dataset : gmap string Kernel.loc :=
  <[ "rsdt"%string := 1%positive ]>
  (<[ "rlut"%string := 2%positive ]> {[ "rsut"%string := 3%positive ]}).

(** The three fluxes at the top of the atmosphere, one year on a one-cell
    grid at the equator. *)
Definition toa_fluxes : dataset :=
  mkDataset [20000101%Z] [0] [0]
    (<[ "rsdt"%string := [[[340]]] ]>
    (<[ "rlut"%string := [[[240]]] ]> {[ "rsut"%string := [[[99]]] ]})).

(** The three fluxes, one time step on two latitudes (the equator and 60
    degrees north) and one longitude. *)
Definition toa_two_bands : dataset :=
  mkDataset [20000101%Z] [0; 60] [0]
    (<[ "rsdt"%string := [[[420]; [210]]] ]>
    (<[ "rlut"%string := [[[250]; [220]]] ]> {[ "rsut"%string := [[[100]; [90]]] ]})).

(** A net flux, one time step on the same two latitudes. *)
Definition net_two_bands : cube := mkCube [20000101%Z] [0; 60] [0] [[[70]; [-100]]].

(** Monthly temperatures around Italy: three time steps on a grid of two
    latitudes and two longitudes. *)
Definition monthly_tas : cube :=
  mkCube [19991201%Z; 20000101%Z; 20000701%Z] [30; 40] [10; 30]
    [ [[1; 2]; [3; 4]]; [[5; 6]; [7; 8]]; [[9; 10]; [11; 12]] ].

(** A zonal profile on three latitudes, south to north. *)
Definition three_bands : zonal := mkZonal [-60; 0; 60] [-80; 70; -50].

(** One time step of temperature on a grid stored north to south. *)
Definition north_to_south : dataset :=
  mkDataset [20000101%Z] [40; 30] [10; 30] {[ "tas"%string := [[[7; 8]; [5; 6]]] ]}.

(** A kernel holding the monthly temperatures. *)
Definition tas_kernel : Kernel.kernel :=
  Kernel.mkKernel
    {[ 1%positive := Kernel.mkDataArray (Some "tas"%string) (Kernel.Cube monthly_tas) ]}
    [].

(** A kernel holding two temperature fields of one grid of two latitudes
    and two longitudes. *)
Definition lig_and_historical : Kernel.kernel :=
  Kernel.mkKernel
    (<[ 1%positive := Kernel.mkDataArray (Some "tas"%string)
                        (Kernel.Field (mkField [0; 60] [0; 180] [[288; 289]; [270; 271]])) ]>
    {[ 2%positive := Kernel.mkDataArray (Some "tas"%string)
                        (Kernel.Field (mkField [0; 60] [0; 180] [[287; 287]; [268; 272]])) ]})
    [].

(** A kernel holding two temperature fields of a grid of one cell. *)
Definition single_cells : Kernel.kernel :=
  Kernel.mkKernel
    (<[ 1%positive := Kernel.mkDataArray (Some "tas"%string)
                        (Kernel.Field (mkField [0] [0] [[288]])) ]>
    {[ 2%positive := Kernel.mkDataArray (Some "tas"%string)
                        (Kernel.Field (mkField [0] [0] [[287]])) ]})
    [].

(** A kernel holding two precipitation fields of one grid of two latitudes
    and two longitudes, in kg m-2 s-1. *)
Definition lgm_and_historical : Kernel.kernel :=
  Kernel.mkKernel
    (<[ 1%positive := Kernel.mkDataArray (Some "pr"%string)
                        (Kernel.Field (mkField [0; 60] [0; 180] [[2; 1]; [4; 3]])) ]>
    {[ 2%positive := Kernel.mkDataArray (Some "pr"%string)
                        (Kernel.Field (mkField [0; 60] [0; 180] [[3; 3]; [5; 1]])) ]})
    [].

(** Two fields of one grid, a model mean and an observed mean. *)
Definition model_mean : field := mkField [0; 60] [0; 180] [[1; 3]; [5; 7]].

Definition observed_mean : field := mkField [0; 60] [0; 180] [[2; 2]; [4; 4]].

(** A directory that holds an archive downloaded earlier, and a network
    that serves nothing. *)
Definition offline : gmap string Shell.content := ∅.

Definition earlier_download : gmap string Shell.content :=
  {[ Shell.archive_file := Shell.TarGz [("ussp/CERES-2020-2022.nc", "old")]%string ]}.

(** A network that serves the archive, holding one data file, and a
    directory that already has an older copy of that file. *)
Definition served : gmap string Shell.content :=
  {[ Shell.archive_url := Shell.TarGz [("ussp/CERES-2020-2022.nc", "new")]%string ]}.

Definition stale_directory : gmap string Shell.content :=
  {[ "ussp/CERES-2020-2022.nc"%string := Shell.Bytes "old" ]}.

(** A directory with one radiation file, and a NetCDF library that reads
    the three fluxes from it. *)
Definition radiation_file : gmap string Shell.content :=
  {[ "ussp/rsdt_EC-Earth3.nc"%string := Shell.Bytes "fluxes" ]}.

Definition decode (c : Shell.content) : option dataset :=
  match c with
  | Shell.Bytes _ => Some toa_fluxes
  | Shell.TarGz _ => None
  end.

Definition encode (ds : dataset) : Shell.content := Shell.Bytes "dataset".

Definition matches (pattern path : string) : bool := true.

Definition combine (parts : list dataset) : option dataset := head parts.

End Samples.

(* ===================================================================== *)
(** * Properties                                                          *)
(* ===================================================================== *)

(** ** Sums, running sums and aligned axes *)

Section Sums.
#[local] Open Scope R_scope.
Import Xr.

Lemma Rsum_app (l1 l2 : list R) : Rsum (l1 ++ l2) = Rsum l1 + Rsum l2.
Proof. induction l1 as [|x l1 IH]; simpl; [lra | rewrite IH; lra]. Qed.

Lemma cumsum_from_length (acc : R) (l : list R) :
  length (cumsum_from acc l) = length l.
Proof. revert acc. induction l as [|x l IH]; intros acc; simpl; [done | by rewrite IH]. Qed.

Lemma cumsum_from_lookup (l : list R) : ∀ (acc : R) (i : nat),
  (i < length l)%nat →
  cumsum_from acc l !! i = Some (acc + Rsum (take (S i) l)).
Proof.
  induction l as [|x l IH]; intros acc i Hi; simpl in Hi; [lia |].
  destruct i as [|i].
  - simpl. f_equal. lra.
  - cbn [cumsum_from lookup list_lookup]. rewrite IH by lia.
    f_equal. cbn [take Rsum foldr]. fold (Rsum (take (S i) l)). lra.
Qed.

Lemma cumsum_lookup (l : list R) (i : nat) :
  (i < length l)%nat → cumsum l !! i = Some (Rsum (take (S i) l)).
Proof.
  intros Hi. unfold cumsum. rewrite cumsum_from_lookup by done. f_equal. lra.
Qed.

Lemma align_axis_same {L : Type} `{EqDecision L} (l : list L) :
  align_axis l l = Some l.
Proof. unfold align_axis. by rewrite decide_True. Qed.

Lemma reindex_same {L A : Type} `{EqDecision L} (l : list L) (items : list A) :
  reindex l items l = items.
Proof. unfold reindex. by rewrite decide_True. Qed.

Lemma zonal_binop_same (op : R → R → R) (lat v1 v2 : list R) :
  zonal_binop op (mkZonal lat v1) (mkZonal lat v2)
  = Some (mkZonal lat (zip_with op v1 v2)).
Proof.
  unfold zonal_binop. simpl. rewrite align_axis_same. simpl.
  by rewrite !reindex_same.
Qed.

Lemma slice_fmap {A B : Type} (f : A → B) (bounds : nat * nat) (l : list A) :
  slice bounds (f <$> l) = f <$> slice bounds l.
Proof. unfold slice. by rewrite fmap_take, fmap_drop. Qed.

Example cumsum_three : cumsum [1; 2; 3] = [1; 3; 6].
Proof. unfold cumsum. cbn [cumsum_from]. repeat f_equal; lra. Qed.

Example mean_three : mean [1; 2; 6] = Some 3.
Proof. cbn [mean Rsum foldr length]. f_equal. change (INR 3) with (1 + 1 + 1). lra. Qed.

Example sel_time_keeps_the_period :
  sel_time 20100101 20141231
    (mkCube [20090101; 20100101; 20140101; 20150101]%Z [0] [0]
            [[[1]]; [[2]]; [[3]]; [[4]]])
  = Some (mkCube [20100101; 20140101]%Z [0] [0] [[[2]]; [[3]]]).
Proof. reflexivity. Qed.

Example sel_time_out_of_order :
  sel_time 20100101 20141231
    (mkCube [20100101; 20090101; 20140101]%Z [0] [0] [[[2]]; [[1]]; [[3]]])
  = None.
Proof. reflexivity. Qed.

End Sums.

(** ** Slices of labels on sorted axes *)

Section Slicing.
Import Xr.
Context {K : Type} (le lt : K → K → Prop) `{!RelDecision le, !RelDecision lt}.
Hypothesis le_trans : ∀ x y z, le x y → le y z → le x z.
Hypothesis lt_not_le : ∀ x y, lt x y ↔ ¬ le y x.

Lemma is_monotonic_Sorted (labels : list K) :
  is_monotonic le labels = true ↔ Sorted le labels.
Proof.
  induction labels as [|x rest IH]; [by split; [constructor |] |].
  cbn [is_monotonic]. rewrite andb_true_iff, IH. split.
  - intros [Hx Hs]. constructor; [done |].
    destruct rest as [|y rest]; constructor. by apply bool_decide_eq_true in Hx.
  - intros Hs. apply Sorted_inv in Hs as [Hs Hx]. split; [| done].
    destruct rest as [|y rest]; [done |].
    apply bool_decide_eq_true. by apply HdRel_inv in Hx.
Qed.

Lemma Sorted_le_strongly (labels : list K) :
  Sorted le labels → StronglySorted le labels.
Proof. apply Sorted_StronglySorted. intros x y z. apply le_trans. Qed.

Lemma filter_none {A : Type} (P : A → Prop) `{!∀ a, Decision (P a)} (l : list A) :
  Forall (λ a, ¬ P a) l → filter P l = [].
Proof.
  induction 1 as [|a l Ha _ IH]; [done |]. by rewrite filter_cons_False.
Qed.

Lemma filter_all {A : Type} (P : A → Prop) `{!∀ a, Decision (P a)} (l : list A) :
  Forall P l → filter P l = l.
Proof.
  induction 1 as [|a l Ha _ IH]; [done |]. rewrite filter_cons_True by done. by f_equal.
Qed.

Lemma filter_agree {A : Type} (P Q : A → Prop)
    `{!∀ a, Decision (P a), !∀ a, Decision (Q a)} (l : list A) :
  Forall (λ a, P a ↔ Q a) l → filter P l = filter Q l.
Proof.
  induction 1 as [|a l Ha _ IH]; [done |].
  destruct (decide (P a)) as [Hp|Hp].
  - rewrite !filter_cons_True by tauto. by f_equal.
  - by rewrite !filter_cons_False by tauto.
Qed.

Lemma length_filter_key {A : Type} (key : A → K) (P : K → Prop)
    `{!∀ y, Decision (P y)} (l : list A) :
  length (filter P (key <$> l)) = length (filter (λ a, P (key a)) l).
Proof.
  induction l as [|a l IH]; [done |]. rewrite fmap_cons.
  destruct (decide (P (key a))).
  - rewrite !filter_cons_True by done. cbn [length]. by rewrite IH.
  - by rewrite !filter_cons_False by done.
Qed.

(** On a sorted axis the items up to a bound are a prefix. *)
Lemma take_up_to {A : Type} (key : A → K) (hi : K) (l : list A) :
  StronglySorted le (key <$> l) →
  take (length (filter (λ a, le (key a) hi) l)) l = filter (λ a, le (key a) hi) l.
Proof.
  induction l as [|a l IH]; [done |]. rewrite fmap_cons. intros Hs.
  apply StronglySorted_inv in Hs as [Hs Ha].
  destruct (decide (le (key a) hi)) as [Hq|Hq].
  - rewrite filter_cons_True by done. cbn [length take]. by rewrite IH.
  - rewrite filter_cons_False by done.
    rewrite (filter_none _ l); [done |].
    rewrite Forall_fmap in Ha. eapply Forall_impl; [exact Ha |].
    intros b Hb Hq'. apply Hq. cbn in Hb. by eapply le_trans.
Qed.

(** On a sorted axis the positional slice between the two searches keeps
    the items whose label lies between the bounds, both included. *)
Lemma slice_sorted {A : Type} (key : A → K) (lo hi : K) (l : list A) :
  Sorted le (key <$> l) →
  slice (searchsorted_left lt lo (key <$> l), searchsorted_right le hi (key <$> l)) l
  = filter (λ a, le lo (key a) ∧ le (key a) hi) l.
Proof.
  intros Hs. apply Sorted_le_strongly in Hs.
  unfold slice, searchsorted_left, searchsorted_right. cbn [fst snd].
  rewrite !length_filter_key.
  induction l as [|a l IH]; [done |].
  rewrite fmap_cons in Hs. pose proof Hs as Hsl.
  apply StronglySorted_inv in Hs as [Hs Ha]. rewrite Forall_fmap in Ha.
  destruct (decide (lt (key a) lo)) as [Hp|Hp].
  - rewrite (filter_cons_True (λ a, lt (key a) lo)) by done.
    rewrite (filter_cons_False (λ a, le lo (key a) ∧ le (key a) hi)).
    2: { intros [H _]. by apply lt_not_le in Hp. }
    cbn [length drop]. destruct (decide (le (key a) hi)) as [Hq|Hq].
    + rewrite (filter_cons_True (λ a, le (key a) hi)) by done. cbn [length].
      rewrite Nat.sub_succ. by apply IH.
    + rewrite (filter_cons_False (λ a, le (key a) hi)) by done.
      assert (Forall (λ b, ¬ le (key b) hi) l) as Hnone.
      { eapply Forall_impl; [exact Ha |]. intros b Hb Hq'. apply Hq. cbn in Hb.
        by eapply le_trans. }
      rewrite (filter_none (λ a, le (key a) hi) l) by done.
      rewrite (filter_none (λ a, le lo (key a) ∧ le (key a) hi) l).
      2: { eapply Forall_impl; [exact Hnone |]. intros b Hb [_ H]. done. }
      cbn [length]. by rewrite Nat.sub_0_l.
  - assert (le lo (key a)) as Hlo.
    { destruct (decide (le lo (key a))); [done |]. exfalso. by apply Hp, lt_not_le. }
    assert (Forall (λ b, le lo (key b)) (a :: l)) as Hall.
    { constructor; [done |]. eapply Forall_impl; [exact Ha |].
      intros b Hb. cbn in Hb. by eapply le_trans. }
    rewrite (filter_none (λ a, lt (key a) lo) (a :: l)).
    2: { eapply Forall_impl; [exact Hall |]. intros b Hb Hlt. by apply lt_not_le in Hlt. }
    cbn [length drop]. rewrite Nat.sub_0_r.
    rewrite <- (fmap_cons key) in Hsl.
    rewrite (take_up_to key hi (a :: l) Hsl).
    apply filter_agree. eapply Forall_impl; [exact Hall |].
    intros b Hb. cbn. tauto.
Qed.

Lemma slice_labels_sorted (lo hi : K) (labels : list K) :
  Sorted le labels →
  slice (searchsorted_left lt lo labels, searchsorted_right le hi labels) labels
  = filter (λ y, le lo y ∧ le y hi) labels.
Proof.
  intros Hs.
  assert ((λ y : K, y) <$> labels = labels) as Hid.
  { clear. induction labels as [|y l IH]; [done |]. rewrite fmap_cons. by f_equal. }
  pose proof (slice_sorted (λ y : K, y) lo hi labels) as Hslice.
  rewrite Hid in Hslice. by apply Hslice.
Qed.

Lemma slice_items_sorted {A : Type} (lo hi : K) (labels : list K) (items : list A) :
  Sorted le labels → length items = length labels →
  slice (searchsorted_left lt lo labels, searchsorted_right le hi labels) items
  = (filter (λ p : K * A, le lo p.1 ∧ le p.1 hi) (zip labels items)).*2.
Proof.
  intros Hs Hlen.
  assert (fst <$> zip labels items = labels) as HT by (apply fst_zip; lia).
  assert (snd <$> zip labels items = items) as HV by (apply snd_zip; lia).
  rewrite <- HV at 1. rewrite <- HT at 1 2.
  rewrite slice_fmap. f_equal.
  apply (slice_sorted fst). by rewrite HT.
Qed.

End Slicing.

(** ** The poleward heat transport *)

Section Transport.
#[local] Open Scope R_scope.
Import Xr.

Lemma mean_nonempty (l : list R) :
  (0 < length l)%nat → mean l = Some (Rsum l / INR (length l)).
Proof. destruct l; simpl length; [lia | done]. Qed.

Lemma dlat_nonempty (z : zonal) :
  (0 < length (z_lat z))%nat →
  Radiation.dlat z = Some (PI * Radiation.Earth / INR (length (z_lat z))).
Proof.
  unfold Radiation.dlat. destruct (length (z_lat z)) eqn:E; [lia | done].
Qed.

Lemma global_transport_along_axis (z : zonal) :
  wf_zonal z → (0 < length (z_lat z))%nat →
  Radiation.global_transport z = Some (mkZonal (z_lat z) (RadiationSpec.transport_along_axis z)).
Proof.
  destruct z as [lat val]. unfold wf_zonal. cbn [z_lat z_val]. intros Hwf Hn.
  unfold Radiation.global_transport. cbn [z_lat z_val].
  rewrite mean_nonempty by lia. rewrite dlat_nonempty by done.
  cbn [mbind option_bind z_lat z_val].
  unfold Radiation.dlon, zmap, lat_coord. cbn [z_lat z_val].
  rewrite zonal_binop_same. cbn [mbind option_bind z_lat z_val].
  f_equal. f_equal. unfold RadiationSpec.transport_along_axis. cbn [z_lat z_val].
  apply list_eq. intros i.
  rewrite !list_lookup_fmap, lookup_zip_with, list_lookup_imap.
  rewrite !list_lookup_fmap.
  destruct (decide (i < length lat)%nat) as [Hi|Hi].
  - rewrite cumsum_lookup by (rewrite length_fmap, Hwf; exact Hi).
    destruct (lookup_lt_is_Some_2 lat i Hi) as [φ Hφ].
    rewrite Hφ. cbn [fmap option_fmap option_map mbind option_bind]. f_equal.
    unfold RadiationSpec.area_element, Radiation.Earth.
    rewrite Hwf. field.
    repeat split; first [apply not_0_INR; lia | apply pow_nonzero; lra | lra].
  - rewrite (lookup_ge_None_2 lat i) by lia.
    cbn [fmap option_fmap option_map mbind option_bind].
    rewrite (lookup_ge_None_2 (cumsum _) i); [done |].
    unfold cumsum. rewrite cumsum_from_length, length_fmap, Hwf. lia.
Qed.

Lemma filter_above_nil (φ : R) (lat val : list R) :
  Forall (Rlt φ) lat →
  filter (λ c : R * R, c.1 <= φ) (zip lat val) = [].
Proof.
  revert val. induction lat as [|φ1 lat IH]; intros val Hall; [done |].
  destruct val as [|v val]; [done |].
  inversion Hall as [|? ? Hlt Hrest]; subst. cbn [zip zip_with].
  rewrite filter_cons_False by (cbn [fst]; lra). by apply IH.
Qed.

Lemma filter_sorted_prefix (lat : list R) : ∀ (val : list R) (i : nat) (φ : R),
  StronglySorted Rlt lat → length val = length lat → lat !! i = Some φ →
  filter (λ c : R * R, c.1 <= φ) (zip lat val) = take (S i) (zip lat val).
Proof.
  induction lat as [|φ0 lat IH]; intros val i φ Hs Hlen Hφ; [done |].
  destruct val as [|v val]; [done |].
  inversion Hs as [|? ? Hs' Hall]; subst.
  cbn [zip zip_with]. destruct i as [|i].
  - injection Hφ as ->.
    rewrite filter_cons_True by (cbn [fst]; lra).
    fold (zip lat val). rewrite filter_above_nil by done. done.
  - cbn [lookup list_lookup] in Hφ.
    assert (φ0 < φ) as Hlt.
    { eapply Forall_forall in Hall; [exact Hall |].
      eapply list_elem_of_lookup_2. exact Hφ. }
    rewrite filter_cons_True by (cbn [fst]; lra).
    fold (zip lat val). cbn [take]. f_equal.
    apply IH; [done | simpl in Hlen; lia | done].
Qed.

Lemma transport_sorted (z : zonal) :
  wf_zonal z → StronglySorted Rlt (z_lat z) →
  RadiationSpec.transport_from_south z = RadiationSpec.transport_along_axis z.
Proof.
  destruct z as [lat val]. unfold wf_zonal. cbn [z_lat z_val]. intros Hwf Hs.
  unfold RadiationSpec.transport_from_south, RadiationSpec.transport_along_axis.
  cbn [z_lat z_val]. apply list_eq. intros i.
  rewrite list_lookup_fmap, list_lookup_imap.
  destruct (lat !! i) as [φ|] eqn:Hφ; [| done].
  cbn [fmap option_fmap option_map]. f_equal. f_equal. f_equal. f_equal.
  rewrite (filter_sorted_prefix lat val i φ) by done.
  generalize (Rsum val / INR (length lat)). intros m.
  assert ((λ x, x - m) <$> val = (λ c : R * R, c.2 - m) <$> zip lat val) as ->.
  { apply list_eq. intros j. rewrite !list_lookup_fmap, lookup_zip_with.
    destruct (lat !! j) as [φj|] eqn:Hj; [by destruct (val !! j) |].
    apply lookup_ge_None_1 in Hj. rewrite (lookup_ge_None_2 val j) by lia. done. }
  by rewrite fmap_take.
Qed.

(** C1, as amended.  On a latitude axis stored in ascending order (south to
    north) with at least one latitude, the notebook's [global_transport] is
    the integral from the southernmost latitude northward: at each latitude,
    the sum of the mean-removed values at all latitudes up to it, times
    [dlon * dlat] with [dlon = 2*pi*6370000*cos(latitude)] and
    [dlat = pi*6370000/n], divided by [10^15]. *)
Theorem global_transport_from_south (z : zonal) :
  wf_zonal z → (0 < length (z_lat z))%nat → StronglySorted Rlt (z_lat z) →
  Radiation.global_transport z
  = Some (mkZonal (z_lat z) (RadiationSpec.transport_from_south z)).
Proof.
  intros Hwf Hn Hs.
  rewrite global_transport_along_axis by done.
  by rewrite transport_sorted.
Qed.

Lemma global_transport_from_south_witness :
  Radiation.global_transport (mkZonal [-1; 0] [1; 3])
  = Some (mkZonal [-1; 0]
            (RadiationSpec.transport_from_south (mkZonal [-1; 0] [1; 3]))).
Proof.
  apply (global_transport_from_south (mkZonal [-1; 0] [1; 3])).
  - reflexivity.
  - simpl. lia.
  - simpl. repeat constructor. lra.
Defined.

Lemma area_element_equator_pos : 0 < RadiationSpec.area_element 2 0.
Proof.
  unfold RadiationSpec.area_element, deg2rad.
  rewrite Rmult_0_l, cos_0. change (INR 2) with (1 + 1).
  pose proof PI_RGT_0 as Hpi.
  assert (0 < PI * 6370000 / (1 + 1)) by (apply Rdiv_lt_0_compat; lra).
  assert (0 < 2 * PI * 6370000 * 1) by lra.
  by apply Rmult_lt_0_compat.
Qed.

Lemma scaled_neq (a b A P : R) :
  0 < A → 0 < P → a ≠ b → a * A / P ≠ b * A / P.
Proof.
  intros HA HP Hab Heq. apply Hab.
  apply (Rmult_eq_reg_r (A / P)); [unfold Rdiv in *; lra |].
  apply Rgt_not_eq. by apply Rdiv_lt_0_compat.
Qed.

(** C1, as stated, fails on an axis stored north to south: the running sum
    of [np.cumsum] starts at the first stored latitude, here the northern
    one, where the integral from the south is the sum of all anomalies. *)
Lemma global_transport_from_south_descending :
  Radiation.global_transport (mkZonal [0; -1] [1; 3])
  ≠ Some (mkZonal [0; -1]
            (RadiationSpec.transport_from_south (mkZonal [0; -1] [1; 3]))).
Proof.
  rewrite global_transport_along_axis by (try reflexivity; simpl; lia).
  intros Heq. injection Heq as Hnorth _.
  unfold RadiationSpec.transport_along_axis, RadiationSpec.transport_from_south in Hnorth.
  cbn [z_lat z_val zip zip_with fmap list_fmap imap length] in Hnorth.
  rewrite !filter_cons_True in Hnorth by (cbn [fst]; lra).
  rewrite filter_nil in Hnorth.
  cbn [take fmap list_fmap Rsum foldr snd] in Hnorth.
  change (INR 2) with (1 + 1) in Hnorth.
  revert Hnorth. apply scaled_neq.
  - apply area_element_equator_pos.
  - lra.
  - lra.
Qed.

End Transport.

(** ** Area-weighted spatial means *)

Section Weighting.
#[local] Open Scope R_scope.
Import Xr WeightingSpec.

Lemma cells_cons (φ : R) (lat : list R) (row : list R) (v : list (list R)) :
  cells (φ :: lat) (row :: v) = ((λ x, (φ, x)) <$> row) ++ cells lat v.
Proof. done. Qed.

(** [np.cos(np.deg2rad(φ))] is the cosine of the latitude. *)
Lemma cos_deg2rad (φ : R) : cos (deg2rad φ) = cos_lat φ.
Proof. unfold deg2rad, cos_lat. f_equal. lra. Qed.

Lemma row_weighted_sum (w φ : R) (row : list R) :
  w = cos (deg2rad φ) →
  Rsum ((λ x, x * w) <$> row)
  = Rsum ((λ c : R * R, cos_lat c.1 * c.2) <$> ((λ x, (φ, x)) <$> row)).
Proof.
  intros ->. rewrite cos_deg2rad. induction row as [|x row IH]; [done |].
  rewrite !fmap_cons. unfold Rsum in *. cbn [foldr fst snd]. rewrite IH. lra.
Qed.

Lemma row_weight_total (w φ : R) (row : list R) :
  w = cos (deg2rad φ) →
  Rsum ((λ _, w) <$> row)
  = Rsum ((λ c : R * R, cos_lat c.1) <$> ((λ x, (φ, x)) <$> row)).
Proof.
  intros ->. rewrite cos_deg2rad. induction row as [|x row IH]; [done |].
  rewrite !fmap_cons. unfold Rsum in *. cbn [foldr fst snd]. by rewrite IH.
Qed.

Lemma weighted_sum_cells (lat : list R) : ∀ v : list (list R),
  Rsum (zip_with (λ wi row, Rsum ((λ x, x * wi) <$> row))
          (cos <$> (deg2rad <$> lat)) v)
  = cos_weighted_sum lat v.
Proof.
  unfold cos_weighted_sum.
  induction lat as [|φ lat IH]; intros [|row v]; try done.
  rewrite cells_cons, fmap_app, Rsum_app, <- IH.
  cbn [fmap list_fmap zip_with Rsum foldr]. f_equal.
  by apply row_weighted_sum.
Qed.

Lemma weight_total_cells (lat : list R) : ∀ v : list (list R),
  Rsum (zip_with (λ wi row, Rsum ((λ _ : R, wi) <$> row))
          (cos <$> (deg2rad <$> lat)) v)
  = cos_weight_total lat v.
Proof.
  unfold cos_weight_total.
  induction lat as [|φ lat IH]; intros [|row v]; try done.
  rewrite cells_cons, fmap_app, Rsum_app, <- IH.
  cbn [fmap list_fmap zip_with Rsum foldr]. f_equal.
  by apply row_weight_total.
Qed.

(** The weighted mean of a grid under the cosines of its own latitudes. *)
Lemma weighted_mean_own_latitudes (lat lon : list R) (v : list (list R)) :
  cos_weight_total lat v ≠ 0 →
  Xr.weighted_mean (zmap cos (zmap deg2rad (lat_coord lat))) (mkField lat lon v)
  = Some (cos_weighted_mean lat v).
Proof.
  intros Hw. unfold Xr.weighted_mean, zmap, lat_coord. cbn [z_lat z_val f_lat f_val].
  rewrite align_axis_same. cbn [mbind option_bind].
  rewrite !reindex_same, weighted_sum_cells, weight_total_cells.
  by rewrite decide_False.
Qed.

Lemma weighted_mean_no_weight (lat lon : list R) (v : list (list R)) :
  cos_weight_total lat v = 0 →
  Xr.weighted_mean (zmap cos (zmap deg2rad (lat_coord lat))) (mkField lat lon v)
  = None.
Proof.
  intros Hw. unfold Xr.weighted_mean, zmap, lat_coord. cbn [z_lat z_val f_lat f_val].
  rewrite align_axis_same. cbn [mbind option_bind].
  rewrite !reindex_same, weight_total_cells.
  by rewrite decide_True.
Qed.

(** C2.  In notebook 1, the weighted mean of [tas] over [lon] and [lat] is,
    at every time step, the sum over the grid cells of
    [cos(latitude) * value] divided by the sum over the grid cells of
    [cos(latitude)] (that sum being nonzero, as a mean needs). *)
Theorem weighted_mean_cosine_latitude (data : dataset)
    (tas : list (list (list R))) (t : nat) (v : list (list R)) :
  d_vars data !! "tas"%string = Some tas →
  tas !! t = Some v →
  cos_weight_total (d_lat data) v ≠ 0 →
  ∃ series, DataAnalysis.weighted_mean data = Some series ∧
    series !! t = Some (Some (cos_weighted_mean (d_lat data) v)).
Proof.
  intros Htas Hv Hw.
  unfold DataAnalysis.weighted_mean, getitem. rewrite Htas.
  cbn [mbind option_bind]. eexists. split; [reflexivity |].
  unfold weighted_mean_cube, DataAnalysis.area_weights. cbn [c_val c_lat c_lon].
  rewrite list_lookup_fmap, Hv. cbn [fmap option_fmap option_map].
  f_equal. by apply weighted_mean_own_latitudes.
Qed.

(** The same in notebook 2, for the time series of [net_toa]. *)
Lemma net_toa_series_cosine_latitude (ds : dataset) (net : cube) (t : nat)
    (v : list (list R)) :
  Radiation.net_toa ds = Some net → c_val net !! t = Some v →
  cos_weight_total (c_lat net) v ≠ 0 →
  ∃ series, Radiation.net_toa_series ds = Some series ∧
    series !! t = Some (Some (cos_weighted_mean (c_lat net) v)).
Proof.
  intros Hnet Hv Hw. unfold Radiation.net_toa_series. rewrite Hnet.
  cbn [mbind option_bind]. eexists. split; [reflexivity |].
  unfold weighted_mean_cube, Radiation.area_weights.
  rewrite list_lookup_fmap, Hv. cbn [fmap option_fmap option_map].
  f_equal. by apply weighted_mean_own_latitudes.
Qed.

End Weighting.

Section WeightingWitness.
#[local] Open Scope R_scope.
Import Xr WeightingSpec.

Lemma cos_lat_equator : cos_lat 0 = 1.
Proof.
  unfold cos_lat. replace (0 * PI / 180) with 0 by lra. apply cos_0.
Qed.

Lemma cos_lat_60 : cos_lat 60 = 1 / 2.
Proof.
  unfold cos_lat. replace (60 * PI / 180) with (PI / 3) by lra. apply cos_PI3.
Qed.

(** On the equator and 60 degrees north the weights differ, 1 and 1/2. *)
Lemma two_bands_weight_total (a b c d : R) :
  cos_weight_total [0; 60] [[a; b]; [c; d]] = 3.
Proof.
  unfold cos_weight_total, cells, Rsum.
  cbn [zip_with fmap list_fmap mjoin list_join app foldr fst].
  rewrite cos_lat_equator, cos_lat_60. lra.
Qed.

Lemma two_bands_weighted_sum (a b c d : R) :
  cos_weighted_sum [0; 60] [[a; b]; [c; d]] = a + b + (c + d) / 2.
Proof.
  unfold cos_weighted_sum, cells, Rsum.
  cbn [zip_with fmap list_fmap mjoin list_join app foldr fst snd].
  rewrite cos_lat_equator, cos_lat_60. lra.
Qed.

Lemma weighted_mean_cosine_latitude_witness :
  ∃ series, DataAnalysis.weighted_mean Samples.two_bands_tas = Some series ∧
    series !! 0%nat = Some (Some (cos_weighted_mean [0; 60] [[1; 3]; [5; 7]])).
Proof.
  apply (weighted_mean_cosine_latitude Samples.two_bands_tas [[[1; 3]; [5; 7]]] 0
           [[1; 3]; [5; 7]]).
  - reflexivity.
  - reflexivity.
  - cbn [Samples.two_bands_tas d_lat]. rewrite two_bands_weight_total. lra.
Defined.

(** There the weighted mean is 10/3, where the mean of the four cells
    is 4. *)
Example weighted_mean_two_bands :
  cos_weighted_mean [0; 60] [[1; 3]; [5; 7]] = 10 / 3.
Proof.
  unfold cos_weighted_mean. rewrite two_bands_weighted_sum, two_bands_weight_total. lra.
Qed.

End WeightingWitness.

(** ** Cloud radiative forcing *)

Section Forcing.
#[local] Open Scope R_scope.
Import Xr ForcingSpec.

Lemma reindex_rows_same (lat lon : list R) (v : list (list R)) :
  reindex_rows lat lon v lat lon = v.
Proof.
  unfold reindex_rows. rewrite reindex_same.
  induction v as [|row v IH]; [done |].
  rewrite fmap_cons, reindex_same. by f_equal.
Qed.

Lemma fmap_reindex_rows_same (lat lon : list R) (a : list (list (list R))) :
  (λ v, reindex_rows lat lon v lat lon) <$> a = a.
Proof.
  induction a as [|v a IH]; [done |].
  rewrite fmap_cons, reindex_rows_same. by f_equal.
Qed.

Lemma cube_binop_same (op : R → R → R) (T : list Z) (La Lo : list R)
    (a b : list (list (list R))) :
  cube_binop op (mkCube T La Lo a) (mkCube T La Lo b)
  = Some (mkCube T La Lo (zip_with (zip_with (zip_with op)) a b)).
Proof.
  unfold cube_binop. cbn [c_time c_lat c_lon c_val].
  rewrite !align_axis_same. cbn [mbind option_bind].
  by rewrite !reindex_same, !fmap_reindex_rows_same.
Qed.

Lemma field_binop_same (op : R → R → R) (La Lo : list R) (a b : list (list R)) :
  field_binop op (mkField La Lo a) (mkField La Lo b)
  = Some (mkField La Lo (zip_with (zip_with op) a b)).
Proof.
  unfold field_binop. cbn [f_lat f_lon f_val].
  rewrite !align_axis_same. cbn [mbind option_bind].
  by rewrite !reindex_rows_same.
Qed.

Lemma selected_nil_r {A : Type} (first last : Z) (T : list Z) :
  selected first last T (@nil A) = [].
Proof. unfold selected. by destruct T. Qed.

Lemma selected_cons {A : Type} (first last t : Z) (T : list Z) (x : A) (a : list A) :
  selected first last (t :: T) (x :: a)
  = if decide (first ≤ t ∧ t ≤ last)%Z then x :: selected first last T a
    else selected first last T a.
Proof.
  unfold selected. cbn [zip zip_with].
  destruct (decide (first ≤ t ∧ t ≤ last)%Z) as [E|E].
  - rewrite filter_cons_True; [reflexivity | exact E].
  - rewrite filter_cons_False; [reflexivity | exact E].
Qed.

Lemma selected_zip_with {A B C : Type} (f : A → B → C) (first last : Z)
    (T : list Z) : ∀ (a : list A) (b : list B),
  selected first last T (zip_with f a b)
  = zip_with f (selected first last T a) (selected first last T b).
Proof.
  induction T as [|t T IH]; intros a b; [done |].
  destruct a as [|x a]; [by rewrite !selected_nil_r |].
  destruct b as [|y b].
  { cbn [zip_with]. rewrite !selected_nil_r. by destruct (selected first last (t :: T) (x :: a)). }
  cbn [zip_with]. rewrite !selected_cons.
  destruct (decide (first ≤ t ∧ t ≤ last)%Z); cbn [zip_with]; by rewrite IH.
Qed.

Lemma selected_length {A : Type} (first last : Z) (T : list Z) : ∀ a : list A,
  length a = length T →
  length (selected first last T a)
  = length (filter (λ t, first ≤ t ∧ t ≤ last)%Z T).
Proof.
  induction T as [|t T IH]; intros [|x a] Hlen; try done.
  rewrite selected_cons. simpl in Hlen.
  destruct (decide (first ≤ t ∧ t ≤ last)%Z) as [E|E].
  - rewrite filter_cons_True by done. cbn [length]. rewrite IH by lia. done.
  - rewrite filter_cons_False by done. apply IH. lia.
Qed.

Lemma selected_Forall {A : Type} (P : A → Prop) (first last : Z) (T : list Z) :
  ∀ a : list A, Forall P a → Forall P (selected first last T a).
Proof.
  induction T as [|t T IH]; intros [|x a] Ha; try by constructor.
  inversion Ha; subst. rewrite selected_cons.
  destruct (decide (first ≤ t ∧ t ≤ last)%Z); [constructor |]; auto.
Qed.

(** On a time axis in increasing order the slice between two dates keeps
    the time steps whose date is in the period; on any other it is a
    [KeyError]. *)
Lemma time_slice_sorted {A : Type} (first last : Z) (T : list Z) (V : list A) :
  Sorted Z.le T → length V = length T →
  ∃ locs, time_slice_locs first last T = Some locs ∧
    slice locs T = filter (λ t, first ≤ t ∧ t ≤ last)%Z T ∧
    slice locs V = selected first last T V.
Proof.
  intros Hs Hlen. unfold time_slice_locs.
  rewrite (proj2 (is_monotonic_Sorted Z.le T) Hs).
  eexists. split; [reflexivity |].
  assert (fst <$> zip T V = T) as HT by (apply fst_zip; lia).
  assert (snd <$> zip T V = V) as HV by (apply snd_zip; lia).
  split.
  - assert ((λ t : Z, t) <$> T = T) as Hid.
    { clear. induction T as [|t T IH]; [done |]. rewrite fmap_cons. by f_equal. }
    pose proof (slice_sorted Z.le Z.lt Z.le_trans Z.lt_nge (λ t : Z, t)
                  first last T) as Hslice.
    rewrite Hid in Hslice. by apply Hslice.
  - unfold selected. rewrite <- HV at 1. rewrite <- HT at 1 2.
    rewrite slice_fmap. f_equal.
    apply (slice_sorted Z.le Z.lt Z.le_trans Z.lt_nge fst). by rewrite HT.
Qed.

Lemma time_slice_unsorted (first last : Z) (T : list Z) :
  ¬ Sorted Z.le T → time_slice_locs first last T = None.
Proof.
  intros Hs. unfold time_slice_locs.
  destruct (is_monotonic Z.le T) eqn:E; [| done].
  by apply is_monotonic_Sorted in E.
Qed.

Lemma sel_time_sorted (first last : Z) (c : cube) :
  Sorted Z.le (c_time c) → length (c_val c) = length (c_time c) →
  sel_time first last c
  = Some (mkCube (filter (λ t, first ≤ t ∧ t ≤ last)%Z (c_time c)) (c_lat c) (c_lon c)
            (selected first last (c_time c) (c_val c))).
Proof.
  intros Hs Hlen. unfold sel_time.
  destruct (time_slice_sorted first last (c_time c) (c_val c) Hs Hlen)
    as (locs & -> & HT & HV).
  cbn [mbind option_bind]. by rewrite HT, HV.
Qed.

Lemma cell_wf (lat lon : list R) (v : list (list R)) (i j : nat) :
  wf_rows lat lon v → (i < length lat)%nat → (j < length lon)%nat →
  cell v i j = Some (value v i j).
Proof.
  intros [Hlen Hrows] Hi Hj. unfold value, cell.
  destruct (lookup_lt_is_Some_2 v i) as [row Hrow]; [lia |].
  rewrite Hrow. cbn [mbind option_bind].
  assert (length row = length lon) as Hr.
  { eapply Forall_forall in Hrows; [exact Hrows |]. by eapply list_elem_of_lookup_2. }
  destruct (lookup_lt_is_Some_2 row j) as [x Hx]; [lia |].
  by rewrite Hx.
Qed.

Lemma cell_zip_with (op : R → R → R) (lat lon : list R) (a b : list (list R))
    (i j : nat) :
  wf_rows lat lon a → wf_rows lat lon b →
  (i < length lat)%nat → (j < length lon)%nat →
  cell (zip_with (zip_with op) a b) i j = Some (op (value a i j) (value b i j)).
Proof.
  intros Ha Hb Hi Hj.
  pose proof (cell_wf lat lon a i j Ha Hi Hj) as Hca.
  pose proof (cell_wf lat lon b i j Hb Hi Hj) as Hcb.
  unfold cell in *. rewrite lookup_zip_with.
  destruct (a !! i) as [ra|]; [| done]. destruct (b !! i) as [rb|]; [| done].
  cbn [mbind option_bind] in *. rewrite lookup_zip_with.
  rewrite Hca, Hcb. done.
Qed.

Lemma cells_zip_with (op : R → R → R) (lat lon : list R) (i j : nat)
    (A : list (list (list R))) : ∀ B : list (list (list R)),
  Forall (wf_rows lat lon) A → Forall (wf_rows lat lon) B →
  (i < length lat)%nat → (j < length lon)%nat →
  omap (λ v, cell v i j) (zip_with (zip_with (zip_with op)) A B)
  = zip_with (λ a b, op (value a i j) (value b i j)) A B.
Proof.
  induction A as [|a A IH]; intros [|b B] HA HB Hi Hj; try done.
  inversion HA; inversion HB; subst.
  cbn [zip_with omap list_omap].
  rewrite (cell_zip_with op lat lon a b i j) by done.
  f_equal. by apply IH.
Qed.

Lemma crf_mean_difference (clear allsky : string) (first last : Z)
    (ds : dataset) (cs al : list (list (list R))) :
  wf_dataset ds → Sorted Z.le (d_time ds) →
  d_vars ds !! clear = Some cs → d_vars ds !! allsky = Some al →
  is_mean_difference (Radiation.crf clear allsky first last ds) first last ds cs al.
Proof.
  intros Hwf Hsorted Hcs Hal.
  destruct (Hwf _ _ Hcs) as [Hlc Hrc]. destruct (Hwf _ _ Hal) as [Hla Hra].
  cbn [c_time c_lat c_lon c_val] in *.
  unfold Radiation.crf, getitem. rewrite Hcs, Hal. cbn [mbind option_bind].
  rewrite cube_binop_same. cbn [mbind option_bind].
  set (D := zip_with (zip_with (zip_with Rminus)) cs al).
  rewrite sel_time_sorted; cbn [c_time c_lat c_lon c_val]; [| done |].
  2: { unfold D. rewrite length_zip_with. lia. }
  cbn [mbind option_bind].
  unfold mean_time. cbn [c_time c_lat c_lon c_val].
  assert (selected first last (d_time ds) D
          = zip_with (zip_with (zip_with Rminus))
              (selected first last (d_time ds) cs)
              (selected first last (d_time ds) al)) as Hkept
    by apply selected_zip_with.
  assert (length (selected first last (d_time ds) al)
          = length (selected first last (d_time ds) cs)) as Hsame.
  { by rewrite !selected_length. }
  assert (length (filter (λ t, first ≤ t ∧ t ≤ last)%Z (d_time ds))
          = length (selected first last (d_time ds) cs)) as Hn.
  { by rewrite selected_length. }
  unfold is_mean_difference.
  destruct (selected first last (d_time ds) cs) as [|c0 sel] eqn:Hsel.
  - destruct (filter _ (d_time ds)); [done | simpl in Hn; lia].
  - destruct (filter _ (d_time ds)) as [|t0 ts] eqn:Hts; [simpl in Hn; lia |].
    eexists. split; [reflexivity |]. cbn [f_lat f_lon f_val].
    split; [done |]. split; [done |]. intros i j Hi Hj.
    destruct (lookup_lt_is_Some_2 (d_lat ds) i Hi) as [φ Hφ].
    destruct (lookup_lt_is_Some_2 (d_lon ds) j Hj) as [l Hl].
    unfold cell at 1. rewrite list_lookup_imap, Hφ.
    cbn [fmap option_fmap option_map mbind option_bind].
    rewrite list_lookup_imap, Hl. cbn [fmap option_fmap option_map].
    f_equal. unfold mean_difference. rewrite Hsel, Hn. f_equal.
    rewrite Hkept. f_equal.
    apply (cells_zip_with Rminus (d_lat ds) (d_lon ds)); try done.
    + rewrite <- Hsel. by apply selected_Forall.
    + by apply selected_Forall.
Qed.

(** On a time axis that is not in increasing order the selection of the
    period is a [KeyError]. *)
Lemma crf_out_of_order (clear allsky : string) (first last : Z) (ds : dataset) :
  ¬ Sorted Z.le (d_time ds) → Radiation.crf clear allsky first last ds = None.
Proof.
  intros Hs. unfold Radiation.crf, getitem.
  destruct (d_vars ds !! clear) as [cs|]; [| done].
  destruct (d_vars ds !! allsky) as [al|]; [| done].
  cbn [mbind option_bind]. rewrite cube_binop_same. cbn [mbind option_bind].
  unfold sel_time. cbn [c_time]. by rewrite time_slice_unsorted.
Qed.

(** C3.  On a dataset whose time axis is in increasing order, over any
    period, the longwave forcing is the time mean of [rlutcs - rlut] and
    the shortwave forcing the time mean of [rsutcs - rsut]: clear-sky minus
    all-sky at every cell, averaged over the time steps of the period (and
    not a number when there is none). *)
Theorem cloud_forcing_clear_minus_allsky (first last : Z) (ds : dataset) :
  wf_dataset ds → Sorted Z.le (d_time ds) →
  (∀ cs al, d_vars ds !! "rlutcs"%string = Some cs →
            d_vars ds !! "rlut"%string = Some al →
     is_mean_difference (Radiation.crf "rlutcs" "rlut" first last ds)
       first last ds cs al) ∧
  (∀ cs al, d_vars ds !! "rsutcs"%string = Some cs →
            d_vars ds !! "rsut"%string = Some al →
     is_mean_difference (Radiation.crf "rsutcs" "rsut" first last ds)
       first last ds cs al).
Proof.
  intros Hwf Hs. split; intros cs al Hcs Hal; by apply crf_mean_difference.
Qed.

End Forcing.

(** ** The download script *)

Section Script.
Import Shell.

Lemma simple_echo (T : tools) (guarded : bool) (rest : list string) (st : state) :
  simple T guarded ("echo"%string :: rest) st
  = Running (mkState (fs st) (printed st ++ [join rest]) (trace st) (errexit st)) 0.
Proof. unfold simple. by rewrite decide_True. Qed.

Lemma simple_tool (T : tools) (guarded : bool) (prog : string)
    (rest : list string) (st : state) :
  prog ≠ "echo"%string → errexit st = false →
  simple T guarded (prog :: rest) st
  = Running (mkState (run_tool T (prog :: rest) (fs st)).1 (printed st)
               (trace st ++ [(prog :: rest, (run_tool T (prog :: rest) (fs st)).2)])
               (errexit st))
            (run_tool T (prog :: rest) (fs st)).2.
Proof.
  intros Hprog He. unfold simple. rewrite decide_False by done.
  destruct (run_tool T (prog :: rest) (fs st)) as [fs' s]. by rewrite He.
Qed.

(** The whole run, for any behaviour of wget and tar. *)
Lemma run_download_data (T : tools) (args : list string)
    (files : gmap string content) :
  run T download_data args files
  = let w := run_tool T wget_argv files in
    let t := run_tool T tar_argv w.1 in
    (mkState t.1 ["Download the USSP data"; "Unpack the USSP data"]%string
       [(wget_argv, w.2); (tar_argv, t.2)] false,
     t.2).
Proof.
  unfold run, download_data. cbn [exec fmap list_fmap expand].
  rewrite simple_echo. cbn [fs printed trace errexit].
  rewrite simple_tool by done. cbn [fs printed trace errexit].
  rewrite simple_echo. cbn [fs printed trace errexit].
  rewrite simple_tool by done. cbn [fs printed trace errexit final].
  reflexivity.
Qed.

(** C10.  The unpack step runs whatever the download returned: for any
    behaviour of the two tools and any outcome [wget_status] of wget, tar is
    run next, on the files wget left, and the exit status of the script is
    the exit status of tar. *)
Theorem tar_runs_unconditionally (T : tools) (args : list string)
    (files : gmap string content) :
  ∃ files1 wget_status files2 tar_status,
    run_tool T wget_argv files = (files1, wget_status) ∧
    run_tool T tar_argv files1 = (files2, tar_status) ∧
    trace (run T download_data args files).1
      = [(wget_argv, wget_status); (tar_argv, tar_status)] ∧
    fs (run T download_data args files).1 = files2 ∧
    (run T download_data args files).2 = tar_status.
Proof.
  rewrite run_download_data.
  destruct (run_tool T wget_argv files) as [files1 sw] eqn:Hw.
  destruct (run_tool T tar_argv files1) as [files2 st] eqn:Ht.
  exists files1, sw, files2, st. cbn [fst snd trace fs].
  rewrite Ht. by repeat split.
Qed.

(** A failed download goes unnoticed when an archive is already there: wget
    returns 4, tar unpacks the old archive, and the script exits with 0. *)
Lemma failed_download_is_masked :
  (trace (run (posix_tools Samples.offline) download_data []
            Samples.earlier_download).1).*2 = [4; 0]%nat ∧
  (run (posix_tools Samples.offline) download_data [] Samples.earlier_download).2
  = 0%nat.
Proof. rewrite run_download_data. by vm_compute. Qed.

Example basename_of_url : basename archive_url = archive_file.
Proof. reflexivity. Qed.

(** C5.  The script reads no argument and behaves the same under any; it
    runs wget on the one fixed URL and then tar on the archive; it has no
    construct that reacts to a failure; and its exit status is the status
    the last tool it ran returned. *)
Theorem download_script_interface (T : tools) (args : list string)
    (files : gmap string content) :
  reads_args download_data = false ∧
  run T download_data args files = run T download_data [] files ∧
  (trace (run T download_data args files).1).*1
    = [ ["wget"; archive_url]; ["tar"; "xvfz"; archive_file] ]%string ∧
  handles_errors download_data = false ∧
  last (trace (run T download_data args files).1).*2
    = Some (run T download_data args files).2.
Proof.
  rewrite !run_download_data.
  destruct (run_tool T wget_argv files) as [files1 sw].
  destruct (run_tool T tar_argv (files1, sw).1) as [files2 st].
  by repeat split.
Qed.

End Script.

(** ** The data files *)

Section DataFiles.
Import Files.

Lemma exec_reads_only decode encode matches combine (c : call) (st st' : state) :
  writes c = false →
  exec decode encode matches combine c st = Some st' →
  files st' = files st.
Proof.
  intros Hw Hexec. destruct c as [path|pattern|i j|path]; cbn in Hexec.
  - destruct (read decode st path); by simplify_eq/=.
  - destruct (mapM _ _) as [parts|]; [| done]. cbn in Hexec.
    destruct (combine parts); by simplify_eq/=.
  - destruct (opened st !! i); [| done]. cbn in Hexec.
    destruct (opened st !! j); [| done]. cbn in Hexec.
    destruct (combine _); by simplify_eq/=.
  - discriminate Hw.
Qed.

Lemma run_reads_only decode encode matches combine (calls : list call) :
  ∀ st : state,
  existsb writes calls = false →
  files (run decode encode matches combine calls st) = files st.
Proof.
  induction calls as [|c calls IH]; intros st Hw; [done |].
  cbn [existsb] in Hw. apply orb_false_iff in Hw as [Hc Hrest].
  cbn [run]. destruct (exec decode encode matches combine c st) as [st'|] eqn:E; [| done].
  rewrite IH by done. by eapply exec_reads_only.
Qed.

(** C9, as amended.  Whatever the library's reader, writer, name matching
    and merging do, and whatever the directory holds, running the file
    calls of any of the three notebooks leaves every file as it was: the
    notebooks only open and merge. *)
Theorem notebooks_leave_files_unchanged decode encode matches combine :
  Forall (λ calls, ∀ st : state,
            files (run decode encode matches combine calls st) = files st)
         notebooks.
Proof.
  unfold notebooks. repeat constructor; intros st; by apply run_reads_only.
Qed.

(** C9, as stated, fails on [download_data.sh]: its tar step writes the
    data files, and replaces a data file that is already there. *)
Lemma download_replaces_data_file :
  Shell.fs (Shell.run (Shell.posix_tools Samples.served) Shell.download_data []
              Samples.stale_directory).1 !! "ussp/CERES-2020-2022.nc"%string
  = Some (Shell.Bytes "new") ∧
  Shell.fs (Shell.run (Shell.posix_tools Samples.served) Shell.download_data []
              Samples.stale_directory).1 !! "ussp/CERES-2020-2022.nc"%string
  ≠ Samples.stale_directory !! "ussp/CERES-2020-2022.nc"%string.
Proof.
  rewrite run_download_data. split.
  - vm_compute. reflexivity.
  - vm_compute. discriminate.
Qed.

End DataFiles.

(** ** Objects and effects in the kernel *)

Section Effects.
#[local] Open Scope R_scope.
Import Xr Kernel.

Lemma bind_Some {A B : Type} (m : M A) (f : A → M B) (k k2 : kernel) (b : B) :
  (m ≫= f) k = Some (b, k2) ↔
  ∃ a k1, m k = Some (a, k1) ∧ f a k1 = Some (b, k2).
Proof.
  unfold mbind, M_bind, bind. split.
  - destruct (m k) as [[a k1]|]; [| done]. intros H. by exists a, k1.
  - intros (a & k1 & -> & H). done.
Qed.

Lemma unchanged_refl (k : kernel) : unchanged k k.
Proof. by intros l a. Qed.

Lemma unchanged_trans (k1 k2 k3 : kernel) :
  unchanged k1 k2 → unchanged k2 k3 → unchanged k1 k3.
Proof. intros H12 H23 l a H. by apply H23, H12. Qed.

Lemma unchanged_dom (k k' : kernel) (l : loc) :
  unchanged k k' → l ∉ dom (heap k') → l ∉ dom (heap k).
Proof.
  intros Hu Hl Hin. apply Hl. apply elem_of_dom in Hin as [a Ha].
  apply elem_of_dom. exists a. by apply Hu.
Qed.

Lemma preserves_bind {A B : Type} (m : M A) (f : A → M B) :
  preserves m → (∀ a, preserves (f a)) → preserves (m ≫= f).
Proof.
  intros Hm Hf k b k2 Hrun. apply bind_Some in Hrun as (a & k1 & H1 & H2).
  eapply unchanged_trans; [by eapply Hm | by eapply Hf].
Qed.

Lemma preserves_get (l : loc) : preserves (get l).
Proof.
  intros k a k' H. unfold get in H.
  destruct (heap k !! l); simplify_eq. apply unchanged_refl.
Qed.

Lemma preserves_lift {A : Type} (o : option A) : preserves (lift o).
Proof.
  intros k a k' H. unfold lift in H.
  destruct o; simplify_eq. apply unchanged_refl.
Qed.

Lemma new_fresh (a : DataArray) (k : kernel) (l : loc) (k' : kernel) :
  new a k = Some (l, k') →
  (l ∉ dom (heap k)) ∧ heap k' = <[l := a]> (heap k) ∧ figures k' = figures k.
Proof.
  unfold new. intros H. simplify_eq. cbn [heap figures].
  split; [apply is_fresh | done].
Qed.

Lemma preserves_new (a : DataArray) : preserves (new a).
Proof.
  intros k l k' H. apply new_fresh in H as (Hl & Hh & _).
  intros x b Hx. rewrite Hh. rewrite lookup_insert_ne; [done |].
  intros ->. apply Hl. apply elem_of_dom. by exists b.
Qed.

Lemma allocates_new (a : DataArray) : allocates (new a).
Proof.
  intros k l k' H. apply new_fresh in H as (Hl & Hh & _).
  split; [done |]. rewrite Hh, lookup_insert_eq. by eexists.
Qed.

(** A result allocated after steps that change no object is new. *)
Lemma allocates_bind {A : Type} (m : M A) (f : A → M loc) :
  preserves m → (∀ a, allocates (f a)) → allocates (m ≫= f).
Proof.
  intros Hm Hf k l k2 Hrun. apply bind_Some in Hrun as (a & k1 & H1 & H2).
  destruct (Hf a k1 l k2 H2) as [Hl Hsome]. split; [| done].
  eapply unchanged_dom; [by eapply Hm | done].
Qed.

Lemma preserves_binary (op : R → R → R) (l1 l2 : loc) : preserves (binary op l1 l2).
Proof.
  unfold binary.
  apply preserves_bind; [apply preserves_get |]. intros a.
  apply preserves_bind; [apply preserves_get |]. intros b.
  apply preserves_bind; [apply preserves_lift |]. intros v.
  apply preserves_new.
Qed.

Lemma allocates_binary (op : R → R → R) (l1 l2 : loc) : allocates (binary op l1 l2).
Proof.
  unfold binary.
  apply allocates_bind; [apply preserves_get |]. intros a.
  apply allocates_bind; [apply preserves_get |]. intros b.
  apply allocates_bind; [apply preserves_lift |]. intros v.
  apply allocates_new.
Qed.

Lemma preserves_transform (t : transformation) (l : loc) : preserves (transform t l).
Proof.
  unfold transform.
  apply preserves_bind; [apply preserves_get |]. intros a.
  apply preserves_bind; [apply preserves_lift |]. intros v.
  apply preserves_new.
Qed.

Lemma allocates_transform (t : transformation) (l : loc) : allocates (transform t l).
Proof.
  unfold transform.
  apply allocates_bind; [apply preserves_get |]. intros a.
  apply allocates_bind; [apply preserves_lift |]. intros v.
  apply allocates_new.
Qed.

Lemma preserves_net_toa (dataset : gmap string loc) : preserves (net_toa dataset).
Proof.
  unfold net_toa, sub.
  do 3 (apply preserves_bind; [apply preserves_lift |]; intros ?).
  apply preserves_bind; [apply preserves_binary |]. intros d.
  apply preserves_binary.
Qed.

Lemma allocates_net_toa (dataset : gmap string loc) : allocates (net_toa dataset).
Proof.
  unfold net_toa, sub.
  do 3 (apply allocates_bind; [apply preserves_lift |]; intros ?).
  apply allocates_bind; [apply preserves_binary |]. intros d.
  apply allocates_binary.
Qed.

Lemma binary_runs (op : R → R → R) (l1 l2 : loc) (k : kernel)
    (a b : DataArray) (v : array) :
  heap k !! l1 = Some a → heap k !! l2 = Some b →
  array_binop op (values a) (values b) = Some v →
  binary op l1 l2 k
  = Some (fresh (dom (heap k)),
          mkKernel (<[fresh (dom (heap k)) := mkDataArray (result_name a b) v]> (heap k))
                   (figures k)).
Proof.
  intros H1 H2 Hv. unfold binary, mbind, M_bind, bind, get, lift, new.
  by rewrite H1, H2, Hv.
Qed.

Lemma cube_minus_same (T : list Z) (La Lo : list R) (v1 v2 : list (list (list R))) :
  array_binop Rminus (Cube (mkCube T La Lo v1)) (Cube (mkCube T La Lo v2))
  = Some (Cube (mkCube T La Lo (zip_with (zip_with (zip_with Rminus)) v1 v2))).
Proof. cbn [array_binop]. by rewrite cube_binop_same. Qed.

Lemma transform_runs (t : transformation) (l : loc) (k : kernel)
    (a : DataArray) (v : array) :
  heap k !! l = Some a → transformed t (values a) = Some v →
  transform t l k
  = Some (fresh (dom (heap k)),
          mkKernel (<[fresh (dom (heap k)) := mkDataArray (name a) v]> (heap k))
                   (figures k)).
Proof.
  intros H Hv. unfold transform, mbind, M_bind, bind, get, lift, new.
  by rewrite H, Hv.
Qed.

Lemma transform_raises (t : transformation) (l : loc) (k : kernel) (a : DataArray) :
  heap k !! l = Some a → transformed t (values a) = None → transform t l k = None.
Proof.
  intros H Hv. unfold transform, mbind, M_bind, bind, get, lift.
  by rewrite H, Hv.
Qed.

Lemma unchanged_insert_fresh (k : kernel) (a : DataArray) :
  unchanged k (mkKernel (<[fresh (dom (heap k)) := a]> (heap k)) (figures k)).
Proof.
  intros l b Hl. cbn [heap]. rewrite lookup_insert_ne; [done |].
  intros <-. apply (is_fresh (dom (heap k))), elem_of_dom. by exists b.
Qed.

Lemma slice_locs_sorted (lo hi : R) (labels : list R) :
  Sorted Rle labels →
  slice_locs lo hi labels
  = Some (searchsorted_left Rlt lo labels, searchsorted_right Rle hi labels).
Proof.
  intros Hs. unfold slice_locs.
  by rewrite (proj2 (is_monotonic_Sorted Rle labels) Hs).
Qed.

(** The transformations of the notebooks are defined on a cube whose axes
    are in increasing order and that has a time step. *)
Lemma transformed_cube_defined (c : cube) (first last : Z)
    (lon0 lon1 lat0 lat1 k : R) (w : zonal) :
  Sorted Z.le (c_time c) → Sorted Rle (c_lat c) → Sorted Rle (c_lon c) →
  c_time c ≠ [] →
  Forall (λ t, is_Some (transformed t (Cube c)))
    [SelTime first last; SelBox lon0 lon1 lat0 lat1; Times k; MeanTime; WeightedMean w].
Proof.
  intros Ht Hlat Hlon Hne. repeat constructor; cbn [transformed].
  - unfold sel_time, time_slice_locs.
    rewrite (proj2 (is_monotonic_Sorted Z.le _) Ht). by eexists.
  - unfold cube_sel_box. rewrite !slice_locs_sorted by done. by eexists.
  - by eexists.
  - unfold mean_time. destruct (c_time c); [done | by eexists].
  - by eexists.
Qed.



(** By contrast [a -= b], which the notebooks never write, replaces the
    values of its left operand. *)
Lemma isub_changes_its_operand (k : kernel) (l1 l2 : loc) (a b : DataArray) (v : array) :
  heap k !! l1 = Some a → heap k !! l2 = Some b →
  array_binop Rminus (values a) (values b) = Some v →
  ∃ k', isub l1 l2 k = Some (tt, k') ∧
    heap k' !! l1 = Some (mkDataArray (name a) v).
Proof.
  intros H1 H2 Hv. eexists. split.
  - unfold isub, mbind, M_bind, bind, get, lift, put. by rewrite H1, H2, Hv, H1.
  - cbn [heap]. apply lookup_insert_eq.
Qed.

Lemma on_axes_last (h : gmap loc DataArray) (figs : list (list axes))
    (panels : list axes) (ax : nat) (g : axes → axes) (x : axes) :
  panels !! ax = Some x →
  on_axes (length figs) ax g (mkKernel h (figs ++ [panels]))
  = Some (tt, mkKernel h (figs ++ [alter g ax panels])).
Proof.
  intros Hx. unfold on_axes. cbn [figures heap].
  rewrite lookup_app_r, Nat.sub_diag by lia. cbn [lookup list_lookup mbind option_bind].
  rewrite Hx. do 3 f_equal.
  rewrite <- (Nat.add_0_r (length figs)) at 1. by rewrite alter_app_r.
Qed.

Lemma plot_mesh (l : loc) (fig ax : nat) (kws : list keyword) (k : kernel)
    (a : DataArray) :
  heap k !! l = Some a → plotfunc (values a) = Some Mesh →
  plot l fig ax kws k
  = on_axes fig ax (λ x,
      mkAxes (artists x ++ [mkArtist l (values a) Mesh (vmin_of kws) (vmax_of kws)
                              (cmap_of kws)])
             (title x) (coastlines x)) k.
Proof.
  intros H Hp. unfold plot, mbind, M_bind, bind, get, lift. by rewrite H, Hp.
Qed.

Lemma plot_raises (l : loc) (fig ax : nat) (kws : list keyword) (k : kernel)
    (a : DataArray) :
  heap k !! l = Some a → plotfunc (values a) = None → plot l fig ax kws k = None.
Proof.
  intros H Hp. unfold plot, mbind, M_bind, bind, get, lift. by rewrite H, Hp.
Qed.

(** A grid of at least two latitudes and two longitudes is drawn as a
    map. *)
Lemma plotfunc_field (f : field) :
  (2 ≤ length (f_lat f))%nat → (2 ≤ length (f_lon f))%nat →
  plotfunc (Field f) = Some Mesh.
Proof.
  intros Hlat Hlon. unfold plotfunc. cbn [shape].
  rewrite !filter_cons_True, filter_nil by lia.
  rewrite decide_False; [done |].
  intros [H|H]; [done |].
  apply elem_of_cons in H as [H|H]; [lia |].
  apply list_elem_of_singleton in H. lia.
Qed.



End Effects.

(** ** Deferred evaluation *)

Section Deferred.
#[local] Open Scope R_scope.
Import Xr.

Variable decode : Shell.content → option dataset.
Variable encode : dataset → Shell.content.
Variable matches : string → string → bool.
Variable combine : list dataset → option dataset.

Lemma names_of_dataset (ds : dataset) (name : string) :
  name ∈ (map_to_list (d_vars ds)).*1 ↔ is_Some (d_vars ds !! name).
Proof.
  rewrite list_elem_of_fmap. split.
  - intros ([n v] & -> & Hin). apply elem_of_map_to_list in Hin. by exists v.
  - intros [v Hv]. exists (name, v). split; [done |]. by apply elem_of_map_to_list.
Qed.

Lemma lazy_getitem (ds : dataset) (p name : string) :
  is_Some (d_vars ds !! name) →
  Dask.getitem (Dask.mkLazy p (map_to_list (d_vars ds)).*1) name
  = Some (Dask.Deferred (Dask.Read p name)).
Proof.
  intros H. unfold Dask.getitem. cbn [Dask.names Dask.pattern].
  rewrite decide_True; [done |]. by apply names_of_dataset.
Qed.

(** Running the graph of [net_toa.mean(dim='time')] on the files gives
    what the operations give on the data the files hold. *)
Lemma evaluate_toa_clim (files : gmap string Shell.content) (p : string) (ds : dataset) :
  Dask.dataset_of decode encode matches combine files p = Some ds →
  Dask.evaluate decode encode matches combine files
    (Dask.MeanTime
       (Dask.Minus (Dask.Minus (Dask.Read p "rsdt") (Dask.Read p "rlut"))
                   (Dask.Read p "rsut")))
  = Kernel.Field <$> Radiation.toa_clim ds.
Proof.
  intros Hds. cbn [Dask.evaluate]. rewrite Hds. cbn [mbind option_bind].
  unfold Radiation.toa_clim, Radiation.net_toa, getitem.
  destruct (d_vars ds !! "rsdt"%string) as [v1|]; [| done].
  destruct (d_vars ds !! "rlut"%string) as [v2|]; [| done].
  destruct (d_vars ds !! "rsut"%string) as [v3|];
    cbn [mbind option_bind fmap option_fmap option_map].
  - destruct (cube_binop Rminus _ _) as [d|];
      cbn [mbind option_bind fmap option_fmap option_map]; [| done].
    destruct (cube_binop Rminus d _) as [net|];
      cbn [mbind option_bind fmap option_fmap option_map]; done.
  - by destruct (cube_binop Rminus _ _).
Qed.

Lemma toa_clim_variables (ds : dataset) (f : field) :
  Radiation.toa_clim ds = Some f →
  is_Some (d_vars ds !! "rsdt"%string) ∧ is_Some (d_vars ds !! "rlut"%string) ∧
  is_Some (d_vars ds !! "rsut"%string).
Proof.
  unfold Radiation.toa_clim, Radiation.net_toa, getitem.
  destruct (d_vars ds !! "rsdt"%string); [| done].
  destruct (d_vars ds !! "rlut"%string); [| done].
  destruct (d_vars ds !! "rsut"%string); [| done].
  by intros _.
Qed.


End Deferred.

(** ** Arithmetic on aligned axes *)

Section Aligned.
#[local] Open Scope R_scope.
Import Xr WeightingSpec ForcingSpec.

Lemma align_axis_unique {L : Type} `{EqDecision L} (l1 l2 : list L) :
  NoDup l1 → NoDup l2 → is_Some (align_axis l1 l2).
Proof.
  intros H1 H2. unfold align_axis.
  destruct (decide (l1 = l2)); [by eexists |].
  rewrite decide_True by done. by eexists.
Qed.

Lemma wf_rows_zip_with (op : R → R → R) (La Lo : list R) (a b : list (list R)) :
  wf_rows La Lo a → wf_rows La Lo b → wf_rows La Lo (zip_with (zip_with op) a b).
Proof.
  intros [Hla Hra] [Hlb Hrb]. split.
  - rewrite length_zip_with. lia.
  - clear Hla Hlb. revert b Hrb.
    induction Hra as [|ra a Hr Hra IH]; intros [|rb b] Hrb; try by constructor.
    inversion Hrb; subst. cbn [zip_with]. constructor; [| by apply IH].
    rewrite length_zip_with. lia.
Qed.

(** The weighted mean under weights that come from an equal latitude axis. *)
Lemma weighted_mean_equal_axis (lat lat' lon : list R) (v : list (list R)) :
  lat' = lat → cos_weight_total lat v ≠ 0 →
  Xr.weighted_mean (zmap cos (zmap deg2rad (lat_coord lat'))) (mkField lat lon v)
  = Some (cos_weighted_mean lat v).
Proof. intros ->. apply weighted_mean_own_latitudes. Qed.

Lemma wf_rows_lookup (La Lo : list R) (A : list (list (list R))) (t : nat)
    (a : list (list R)) :
  Forall (wf_rows La Lo) A → A !! t = Some a → wf_rows La Lo a.
Proof. intros HA Ht. eapply Forall_lookup_1; eauto. Qed.

Lemma Forall_wf_zip_with (op : R → R → R) (La Lo : list R)
    (A : list (list (list R))) : ∀ B : list (list (list R)),
  Forall (wf_rows La Lo) A → Forall (wf_rows La Lo) B →
  Forall (wf_rows La Lo) (zip_with (zip_with (zip_with op)) A B).
Proof.
  induction A as [|a A IH]; intros [|b B] HA HB; try by constructor.
  inversion HA; inversion HB; subst. cbn [zip_with].
  constructor; [by apply wf_rows_zip_with | by apply IH].
Qed.

(** The value of a cell of a time step of a cube. *)
Lemma step_zip_with (op : R → R → R) (La Lo : list R) (A B : list (list (list R)))
    (t i j : nat) :
  Forall (wf_rows La Lo) A → Forall (wf_rows La Lo) B →
  (t < length A)%nat → (t < length B)%nat →
  (i < length La)%nat → (j < length Lo)%nat →
  zip_with (zip_with (zip_with op)) A B !! t ≫= (λ v, cell v i j)
  = Some (op (value (default [] (A !! t)) i j) (value (default [] (B !! t)) i j)).
Proof.
  intros HA HB Ht Ht' Hi Hj.
  destruct (lookup_lt_is_Some_2 A t Ht) as [a Ha].
  destruct (lookup_lt_is_Some_2 B t Ht') as [b Hb].
  rewrite lookup_zip_with, Ha, Hb. cbn [mbind option_bind default].
  apply (cell_zip_with op La Lo);
    [exact (wf_rows_lookup La Lo A t a HA Ha) | exact (wf_rows_lookup La Lo B t b HB Hb)
    | done | done].
Qed.

(** C4.  On operands whose coordinate axes are equal, arithmetic is
    defined on the whole grid, whatever the operation and whether the
    operands are zonal profiles, fields or arrays in time: the result has
    the axes of the operands, is well formed, and holds at every cell the
    operation applied to the two cells.  So the bias of the notebook is the
    field of the cell-by-cell differences.  Cosine weights taken from the
    latitude axis of one dataset apply to a field of another dataset with
    an equal latitude axis, along which they are broadcast over the
    longitudes: [era5_mean] is at every time step the cosine-weighted mean
    under the latitudes of the other dataset, and the weighted mean of the
    bias is its cosine-weighted mean.  The notebooks check nothing
    themselves. *)
Theorem aligned_arithmetic_is_defined :
  (∀ (op : R → R → R) (a b : zonal),
     wf_zonal a → wf_zonal b → z_lat a = z_lat b →
     ∃ r, zonal_binop op a b = Some r ∧ z_lat r = z_lat a ∧ wf_zonal r ∧
       ∀ i, (i < length (z_lat a))%nat →
         z_val r !! i
         = Some (op (default 0 (z_val a !! i)) (default 0 (z_val b !! i)))) ∧
  (∀ (op : R → R → R) (f g : field),
     wf_field f → wf_field g → f_lat f = f_lat g → f_lon f = f_lon g →
     ∃ r, field_binop op f g = Some r ∧
       f_lat r = f_lat f ∧ f_lon r = f_lon f ∧ wf_field r ∧
       ∀ i j, (i < length (f_lat f))%nat → (j < length (f_lon f))%nat →
         cell (f_val r) i j = Some (op (value (f_val f) i j) (value (f_val g) i j))) ∧
  (∀ (op : R → R → R) (a b : cube),
     wf_cube a → wf_cube b →
     c_time a = c_time b → c_lat a = c_lat b → c_lon a = c_lon b →
     ∃ r, cube_binop op a b = Some r ∧
       c_time r = c_time a ∧ c_lat r = c_lat a ∧ c_lon r = c_lon a ∧ wf_cube r ∧
       ∀ t i j, (t < length (c_time a))%nat →
         (i < length (c_lat a))%nat → (j < length (c_lon a))%nat →
         c_val r !! t ≫= (λ v, cell v i j)
         = Some (op (value (default [] (c_val a !! t)) i j)
                    (value (default [] (c_val b !! t)) i j))) ∧
  (∀ f g : field,
     wf_field f → wf_field g → f_lat f = f_lat g → f_lon f = f_lon g →
     ∃ b, Radiation.bias f g = Some b ∧
       f_lat b = f_lat f ∧ f_lon b = f_lon f ∧ wf_field b ∧
       ∀ i j, (i < length (f_lat f))%nat → (j < length (f_lon f))%nat →
         cell (f_val b) i j = Some (value (f_val f) i j - value (f_val g) i j)) ∧
  (∀ (data era5 : dataset) (tas : list (list (list R))) (t : nat)
     (v : list (list R)),
     d_lat data = d_lat era5 →
     d_vars era5 !! "tas"%string = Some tas → tas !! t = Some v →
     cos_weight_total (d_lat era5) v ≠ 0 →
     ∃ series, DataAnalysis.era5_mean data era5 = Some series ∧
       series !! t = Some (Some (cos_weighted_mean (d_lat era5) v))) ∧
  (∀ (net_toa : cube) (bias : field),
     c_lat net_toa = f_lat bias →
     cos_weight_total (f_lat bias) (f_val bias) ≠ 0 →
     Radiation.bias_mean (Radiation.area_weights net_toa) bias
     = Some (cos_weighted_mean (f_lat bias) (f_val bias))).
Proof.
  assert (∀ (op : R → R → R) (f g : field),
     wf_field f → wf_field g → f_lat f = f_lat g → f_lon f = f_lon g →
     ∃ r, field_binop op f g = Some r ∧
       f_lat r = f_lat f ∧ f_lon r = f_lon f ∧ wf_field r ∧
       ∀ i j, (i < length (f_lat f))%nat → (j < length (f_lon f))%nat →
         cell (f_val r) i j = Some (op (value (f_val f) i j) (value (f_val g) i j)))
    as Hfield.
  { intros op [La Lo a] [La' Lo' b] Hf Hg. cbn [f_lat f_lon f_val]. intros <- <-.
    rewrite field_binop_same.
    eexists. split; [reflexivity |]. cbn [f_lat f_lon f_val].
    split; [done |]. split; [done |].
    split; [by apply wf_rows_zip_with |].
    intros i j Hi Hj. by apply (cell_zip_with op La Lo). }
  split; [| split; [exact Hfield | split; [| split; [| split]]]].
  - intros op [La a] [La' b]. unfold wf_zonal. cbn [z_lat z_val]. intros Ha Hb <-.
    rewrite zonal_binop_same. eexists. split; [reflexivity |]. cbn [z_lat z_val].
    split; [done |]. split; [rewrite length_zip_with; lia |].
    intros i Hi. rewrite lookup_zip_with.
    destruct (lookup_lt_is_Some_2 a i) as [x ->]; [lia |].
    destruct (lookup_lt_is_Some_2 b i) as [y ->]; [lia |]. done.
  - intros op [T La Lo a] [T' La' Lo' b] [Hla Hra] [Hlb Hrb].
    cbn [c_time c_lat c_lon c_val] in *. intros <- <- <-.
    rewrite cube_binop_same. eexists. split; [reflexivity |].
    cbn [c_time c_lat c_lon c_val].
    split; [done |]. split; [done |]. split; [done |]. split.
    + split; cbn [c_time c_lat c_lon c_val];
        [rewrite length_zip_with; lia | by apply Forall_wf_zip_with].
    + intros t i j Ht Hi Hj. apply (step_zip_with op La Lo); try done; lia.
  - intros f g. unfold Radiation.bias. apply Hfield.
  - intros data era5 tas t v Hlat Htas Hv Hw.
    unfold DataAnalysis.era5_mean, getitem. rewrite Htas.
    cbn [mbind option_bind]. eexists. split; [reflexivity |].
    unfold weighted_mean_cube, DataAnalysis.area_weights. cbn [c_val c_lat c_lon].
    rewrite list_lookup_fmap, Hv. cbn [fmap option_fmap option_map].
    f_equal. by apply weighted_mean_equal_axis.
  - intros net [La Lo v]. cbn [f_lat f_lon f_val]. intros Hlat Hw.
    unfold Radiation.bias_mean, Radiation.area_weights.
    by apply weighted_mean_equal_axis.
Qed.

Lemma aligned_arithmetic_is_defined_witness :
  (∃ r, zonal_binop Rplus Samples.three_bands Samples.three_bands = Some r ∧
     z_lat r = [-60; 0; 60] ∧ wf_zonal r ∧
     ∀ i, (i < 3)%nat →
       z_val r !! i
       = Some (default 0 ([-80; 70; -50] !! i) + default 0 ([-80; 70; -50] !! i))) ∧
  (∃ r, field_binop Rmult Samples.model_mean Samples.observed_mean = Some r ∧
     f_lat r = [0; 60] ∧ f_lon r = [0; 180] ∧ wf_field r ∧
     ∀ i j, (i < 2)%nat → (j < 2)%nat →
       cell (f_val r) i j
       = Some (value [[1; 3]; [5; 7]] i j * value [[2; 2]; [4; 4]] i j)) ∧
  (∃ r, cube_binop Rminus Samples.monthly_tas Samples.monthly_tas = Some r ∧
     c_time r = c_time Samples.monthly_tas ∧ c_lat r = [30; 40] ∧ c_lon r = [10; 30] ∧
     wf_cube r ∧
     ∀ t i j, (t < 3)%nat → (i < 2)%nat → (j < 2)%nat →
       c_val r !! t ≫= (λ v, cell v i j)
       = Some (value (default [] (c_val Samples.monthly_tas !! t)) i j
               - value (default [] (c_val Samples.monthly_tas !! t)) i j)) ∧
  (∃ b, Radiation.bias Samples.model_mean Samples.observed_mean = Some b ∧
     f_lat b = [0; 60] ∧ f_lon b = [0; 180] ∧ wf_field b ∧
     ∀ i j, (i < 2)%nat → (j < 2)%nat →
       cell (f_val b) i j
       = Some (value [[1; 3]; [5; 7]] i j - value [[2; 2]; [4; 4]] i j)) ∧
  (∃ series,
     DataAnalysis.era5_mean Samples.two_bands_tas Samples.era5_two_bands = Some series ∧
     series !! 0%nat = Some (Some (cos_weighted_mean [0; 60] [[2; 2]; [4; 4]]))) ∧
  Radiation.bias_mean (Radiation.area_weights Samples.net_two_bands) Samples.model_mean
  = Some (cos_weighted_mean [0; 60] [[1; 3]; [5; 7]]).
Proof.
  destruct aligned_arithmetic_is_defined
    as (Hzonal & Hfield & Hcube & Hbias & Hera5 & Hmean).
  assert (wf_field Samples.model_mean) as Hm by (split; [reflexivity | repeat constructor]).
  assert (wf_field Samples.observed_mean) as Ho
    by (split; [reflexivity | repeat constructor]).
  assert (wf_cube Samples.monthly_tas) as Hc.
  { split; [reflexivity |]. repeat constructor. }
  split; [| split; [| split; [| split; [| split]]]].
  - apply (Hzonal Rplus Samples.three_bands Samples.three_bands); reflexivity.
  - apply (Hfield Rmult Samples.model_mean Samples.observed_mean Hm Ho); reflexivity.
  - apply (Hcube Rminus Samples.monthly_tas Samples.monthly_tas Hc Hc); reflexivity.
  - apply (Hbias Samples.model_mean Samples.observed_mean Hm Ho); reflexivity.
  - apply (Hera5 Samples.two_bands_tas Samples.era5_two_bands
             [[[2; 2]; [4; 4]]] 0%nat [[2; 2]; [4; 4]]).
    + reflexivity.
    + reflexivity.
    + reflexivity.
    + cbn [Samples.era5_two_bands d_lat]. rewrite two_bands_weight_total. lra.
  - apply (Hmean Samples.net_two_bands Samples.model_mean).
    + reflexivity.
    + cbn [Samples.model_mean f_lat f_val]. rewrite two_bands_weight_total. lra.
Defined.

(** Misaligned operands are not refused: on two grids that share no
    latitude the bias is a field with no cell. *)
Lemma bias_of_disjoint_grids :
  Radiation.bias (mkField [0] [0] [[1]]) (mkField [1] [0] [[2]])
  = Some (mkField [] [0] []).
Proof.
  unfold Radiation.bias, field_binop, align_axis. cbn [f_lat f_lon f_val].
  rewrite (decide_False (P := [0] = [1])) by (intros H; injection H; lra).
  rewrite (decide_True (P := NoDup [0] ∧ NoDup [1]))
    by (split; repeat constructor; set_solver).
  rewrite (decide_True (P := [0] = [0])) by done.
  cbn [mbind option_bind]. unfold common.
  rewrite filter_cons_False, filter_nil.
  2: { rewrite list_elem_of_singleton. lra. }
  unfold reindex_rows, reindex.
  rewrite !(decide_False (P := _ = [])) by done. reflexivity.
Qed.

End Aligned.

(** ** The forcing and the comparison plot on small inputs *)

Section Witnesses.
#[local] Open Scope R_scope.
Import Xr ForcingSpec Kernel.

Lemma four_years_wf : wf_dataset Samples.four_years.
Proof.
  intros name v H. unfold Samples.four_years in H. cbn [d_vars] in H.
  repeat (apply lookup_insert_Some in H as [[_ <-]|[_ H]];
          [split; [reflexivity | repeat constructor] |]).
  apply lookup_singleton_Some in H as [_ <-].
  split; [reflexivity | repeat constructor].
Qed.

Lemma cloud_forcing_clear_minus_allsky_witness :
  is_mean_difference (Radiation.long_crf Samples.four_years)
    20100101 20141231 Samples.four_years
    [[[9]; [9]]; [[5]; [6]]; [[7]; [8]]; [[9]; [9]]]
    [[[0]; [0]]; [[1]; [3]]; [[2]; [2]]; [[0]; [0]]] ∧
  is_mean_difference (Radiation.short_crf Samples.four_years)
    20100101 20141231 Samples.four_years
    [[[9]; [9]]; [[3]; [3]]; [[4]; [2]]; [[9]; [9]]]
    [[[0]; [0]]; [[6]; [5]]; [[8]; [7]]; [[0]; [0]]].
Proof.
  destruct (cloud_forcing_clear_minus_allsky 20100101 20141231 Samples.four_years
              four_years_wf) as [Hlong Hshort].
  { repeat constructor; done. }
  split.
  - apply Hlong; reflexivity.
  - apply Hshort; reflexivity.
Defined.

(** In the sample the period keeps the two middle years, and the longwave
    forcing at the equator is the mean of [5 - 1] and [7 - 2]. *)
Example four_years_selected :
  selected 20100101 20141231 (d_time Samples.four_years)
    [[[9]; [9]]; [[5]; [6]]; [[7]; [8]]; [[9]; [9]]]
  = [[[5]; [6]]; [[7]; [8]]] ∧
  mean_difference 20100101 20141231 (d_time Samples.four_years)
    [[[9]; [9]]; [[5]; [6]]; [[7]; [8]]; [[9]; [9]]]
    [[[0]; [0]]; [[1]; [3]]; [[2]; [2]]; [[0]; [0]]] 0 0
  = (5 - 1 + (7 - 2 + 0)) / 2.
Proof.
  split; [reflexivity |].
  unfold mean_difference.
  change (selected 20100101 20141231 (d_time Samples.four_years)
            [[[9]; [9]]; [[5]; [6]]; [[7]; [8]]; [[9]; [9]]])
    with [[[5]; [6]]; [[7]; [8]]].
  change (selected 20100101 20141231 (d_time Samples.four_years)
            [[[0]; [0]]; [[1]; [3]]; [[2]; [2]]; [[0]; [0]]])
    with [[[1]; [3]]; [[2]; [2]]].
  cbn [zip_with Rsum foldr length value cell lookup list_lookup mbind option_bind default].
  unfold Datatypes.id. change (INR 2) with (1 + 1). lra.
Qed.


Lemma net_toa_runs (ds : dataset) (v1 v2 v3 : list (list (list R))) :
  d_vars ds !! "rsdt"%string = Some v1 →
  d_vars ds !! "rlut"%string = Some v2 →
  d_vars ds !! "rsut"%string = Some v3 →
  Radiation.net_toa ds
  = Some (mkCube (d_time ds) (d_lat ds) (d_lon ds)
            (zip_with (zip_with (zip_with Rminus))
               (zip_with (zip_with (zip_with Rminus)) v1 v2) v3)).
Proof.
  intros H1 H2 H3. unfold Radiation.net_toa, getitem. rewrite H1, H2, H3.
  cbn [mbind option_bind]. rewrite cube_binop_same. cbn [mbind option_bind].
  by rewrite cube_binop_same.
Qed.

Lemma toa_fluxes_clim :
  Radiation.toa_clim Samples.toa_fluxes
  = Some (mkField [0] [0] [[(340 - 240 - 99 + 0) / 1]]).
Proof.
  unfold Radiation.toa_clim.
  rewrite (net_toa_runs Samples.toa_fluxes [[[340]]] [[[240]]] [[[99]]]) by reflexivity.
  reflexivity.
Qed.


End Witnesses.

(* ===================================================================== *)
(** * Further properties of the script and of the notebook cells          *)
(* ===================================================================== *)

(** ** The script with wget and tar as they behave *)

Section ScriptOnMachine.
Import Shell.

Lemma unpack_cons (p c : string) (members : list (string * string))
    (files : gmap string content) :
  unpack ((p, c) :: members) files = unpack members (<[p := Bytes c]> files).
Proof. done. Qed.

Lemma unpack_other (members : list (string * string)) :
  ∀ (files : gmap string content) (p : string),
  p ∉ members.*1 → unpack members files !! p = files !! p.
Proof.
  induction members as [|[q c] members IH]; intros files p Hp; [done |].
  rewrite unpack_cons. rewrite fmap_cons, not_elem_of_cons in Hp.
  destruct Hp as [Hpq Hp]. cbn [fst] in Hpq.
  rewrite IH by done. by rewrite lookup_insert_ne.
Qed.

Lemma unpack_member (members : list (string * string)) :
  ∀ (files : gmap string content) (p c : string),
  NoDup members.*1 → (p, c) ∈ members →
  unpack members files !! p = Some (Bytes c).
Proof.
  induction members as [|[q d] members IH]; intros files p c Hnd Hin.
  - by apply elem_of_nil in Hin.
  - rewrite fmap_cons in Hnd. apply NoDup_cons in Hnd as [Hq Hnd].
    rewrite unpack_cons. apply elem_of_cons in Hin as [Heq|Hin].
    + injection Heq as -> ->. rewrite unpack_other by done.
      apply lookup_insert_eq.
    + by apply IH.
Qed.

Lemma wget_fetches (net files : gmap string content) (c : content) :
  net !! archive_url = Some c → files !! archive_file = None →
  run_tool (posix_tools net) wget_argv files = (<[archive_file := c]> files, 0%nat).
Proof.
  intros Hnet Hfree. unfold posix_tools, wget_argv. cbn [run_tool].
  rewrite decide_True by done. rewrite Hnet.
  change (basename archive_url) with archive_file.
  unfold save_name. by rewrite Hfree.
Qed.

Lemma wget_offline (net files : gmap string content) :
  net !! archive_url = None →
  run_tool (posix_tools net) wget_argv files = (files, 4%nat).
Proof.
  intros Hnet. unfold posix_tools, wget_argv. cbn [run_tool].
  rewrite decide_True by done. by rewrite Hnet.
Qed.

Lemma wget_keeps_earlier (net files : gmap string content) (c old : content) :
  net !! archive_url = Some c → files !! archive_file = Some old →
  files !! "ussp_data.tar.gz.1"%string = None →
  run_tool (posix_tools net) wget_argv files
  = (<["ussp_data.tar.gz.1"%string := c]> files, 0%nat).
Proof.
  intros Hnet Hold Hfree. unfold posix_tools, wget_argv. cbn [run_tool].
  rewrite decide_True by done. rewrite Hnet.
  change (basename archive_url) with archive_file.
  unfold save_name. rewrite Hold.
  assert (free_name (size files) 1 archive_file files = "ussp_data.tar.gz.1"%string) as ->; [| done].
  destruct (size files) as [|n]; cbn [free_name].
  - reflexivity.
  - change (archive_file +:+ "." +:+ pretty 1%nat)%string with "ussp_data.tar.gz.1"%string.
    by rewrite Hfree.
Qed.

Lemma tar_unpacks (net files : gmap string content) (members : list (string * string)) :
  files !! archive_file = Some (TarGz members) →
  run_tool (posix_tools net) tar_argv files = (unpack members files, 0%nat).
Proof.
  intros Harch. unfold posix_tools, tar_argv. cbn [run_tool].
  rewrite decide_True by done. by rewrite Harch.
Qed.

Lemma tar_without_archive (net files : gmap string content) :
  files !! archive_file = None →
  run_tool (posix_tools net) tar_argv files = (files, 2%nat).
Proof.
  intros Harch. unfold posix_tools, tar_argv. cbn [run_tool].
  rewrite decide_True by done. by rewrite Harch.
Qed.







(** X4.  When the download fails and no archive is there, tar still runs,
    fails with 2, and 2 is the exit status of the script; no file is
    touched. *)
Theorem failed_download_without_archive (net files : gmap string content)
    (args : list string) :
  net !! archive_url = None →
  files !! archive_file = None →
  (trace (run (posix_tools net) download_data args files).1).*2 = [4; 2]%nat ∧
  (run (posix_tools net) download_data args files).2 = 2%nat ∧
  fs (run (posix_tools net) download_data args files).1 = files.
Proof.
  intros Hnet Hnone. rewrite run_download_data.
  rewrite (wget_offline net files Hnet). cbn [fst snd].
  rewrite (tar_without_archive net files Hnone). done.
Qed.

Lemma failed_download_without_archive_witness :
  (trace (run (posix_tools Samples.offline) download_data []
            Samples.stale_directory).1).*2 = [4; 2]%nat ∧
  (run (posix_tools Samples.offline) download_data [] Samples.stale_directory).2 = 2%nat ∧
  fs (run (posix_tools Samples.offline) download_data [] Samples.stale_directory).1
  = Samples.stale_directory.
Proof.
  apply (failed_download_without_archive Samples.offline Samples.stale_directory []).
  - reflexivity.
  - reflexivity.
Defined.

End ScriptOnMachine.

(** ** The net flux at the top of the atmosphere *)

Section NetFlux.
#[local] Open Scope R_scope.
Import Xr ForcingSpec.

(** X5.  [net_toa] is defined exactly when the dataset has the three
    variables [rsdt], [rlut] and [rsut]; a missing one is a [KeyError]. *)
Theorem net_toa_defined_iff_variables (ds : dataset) :
  is_Some (Radiation.net_toa ds) ↔
  is_Some (d_vars ds !! "rsdt"%string) ∧
  is_Some (d_vars ds !! "rlut"%string) ∧
  is_Some (d_vars ds !! "rsut"%string).
Proof.
  split.
  - unfold Radiation.net_toa, getitem. intros [net Hnet].
    destruct (d_vars ds !! "rsdt"%string); [| done].
    destruct (d_vars ds !! "rlut"%string); [| done].
    destruct (d_vars ds !! "rsut"%string); [| done].
    by repeat split.
  - intros ([v1 H1] & [v2 H2] & [v3 H3]).
    rewrite (net_toa_runs ds v1 v2 v3) by done. by eexists.
Qed.

Lemma value_zip_with (op : R → R → R) (La Lo : list R) (a b : list (list R))
    (i j : nat) :
  wf_rows La Lo a → wf_rows La Lo b →
  (i < length La)%nat → (j < length Lo)%nat →
  value (zip_with (zip_with op) a b) i j = op (value a i j) (value b i j).
Proof.
  intros Ha Hb Hi Hj. unfold value at 1.
  by rewrite (cell_zip_with op La Lo a b i j).
Qed.

(** X6.  On a well-formed dataset with the three variables, [net_toa] is a
    well-formed array on the grid and the time axis of the dataset, and at
    every time step and cell it holds [rsdt - rlut - rsut]. *)
Theorem net_toa_cells (ds : dataset) (v1 v2 v3 : list (list (list R))) :
  wf_dataset ds →
  d_vars ds !! "rsdt"%string = Some v1 →
  d_vars ds !! "rlut"%string = Some v2 →
  d_vars ds !! "rsut"%string = Some v3 →
  ∃ net, Radiation.net_toa ds = Some net ∧
    c_time net = d_time ds ∧ c_lat net = d_lat ds ∧ c_lon net = d_lon ds ∧
    wf_cube net ∧
    ∀ t s1 s2 s3 i j,
      v1 !! t = Some s1 → v2 !! t = Some s2 → v3 !! t = Some s3 →
      (i < length (d_lat ds))%nat → (j < length (d_lon ds))%nat →
      ∃ s, c_val net !! t = Some s ∧
        cell s i j = Some (value s1 i j - value s2 i j - value s3 i j).
Proof.
  intros Hwf H1 H2 H3.
  destruct (Hwf _ _ H1) as [Hl1 Hr1]. destruct (Hwf _ _ H2) as [Hl2 Hr2].
  destruct (Hwf _ _ H3) as [Hl3 Hr3]. cbn [c_time c_lat c_lon c_val] in *.
  eexists. split; [by apply net_toa_runs |]. cbn [c_time c_lat c_lon c_val].
  split; [done |]. split; [done |]. split; [done |]. split.
  - split; cbn [c_time c_lat c_lon c_val].
    + rewrite !length_zip_with. lia.
    + by repeat apply Forall_wf_zip_with.
  - intros t s1 s2 s3 i j Ht1 Ht2 Ht3 Hi Hj.
    pose proof (wf_rows_lookup _ _ _ _ _ Hr1 Ht1) as Hs1.
    pose proof (wf_rows_lookup _ _ _ _ _ Hr2 Ht2) as Hs2.
    pose proof (wf_rows_lookup _ _ _ _ _ Hr3 Ht3) as Hs3.
    eexists. split.
    + rewrite !lookup_zip_with, Ht1, Ht2, Ht3. reflexivity.
    + rewrite (cell_zip_with Rminus (d_lat ds) (d_lon ds)); try done.
      * f_equal. f_equal. by apply (value_zip_with Rminus (d_lat ds) (d_lon ds)).
      * by apply wf_rows_zip_with.
Qed.

Lemma toa_fluxes_wf : wf_dataset Samples.toa_fluxes.
Proof.
  intros name v H. unfold Samples.toa_fluxes in H. cbn [d_vars] in H.
  apply lookup_insert_Some in H as [[_ <-]|[_ H]].
  { split; [reflexivity | repeat constructor]. }
  apply lookup_insert_Some in H as [[_ <-]|[_ H]].
  { split; [reflexivity | repeat constructor]. }
  apply lookup_singleton_Some in H as [_ <-].
  split; [reflexivity | repeat constructor].
Qed.

Lemma net_toa_cells_witness :
  ∃ net, Radiation.net_toa Samples.toa_fluxes = Some net ∧
    c_time net = [20000101%Z] ∧ c_lat net = [0] ∧ c_lon net = [0] ∧
    wf_cube net ∧
    ∀ t s1 s2 s3 i j,
      [[[340]]] !! t = Some s1 → [[[240]]] !! t = Some s2 → [[[99]]] !! t = Some s3 →
      (i < 1)%nat → (j < 1)%nat →
      ∃ s, c_val net !! t = Some s ∧
        cell s i j = Some (value s1 i j - value s2 i j - value s3 i j).
Proof.
  apply (net_toa_cells Samples.toa_fluxes [[[340]]] [[[240]]] [[[99]]] toa_fluxes_wf).
  - reflexivity.
  - reflexivity.
  - reflexivity.
Defined.

End NetFlux.

(** ** The heat transport on an empty axis *)

Section TransportMore.
#[local] Open Scope R_scope.
Import Xr.

(** X9.  On a well-formed profile [global_transport] is defined exactly
    when there is at least one latitude: on an empty axis the division by
    the number of latitudes raises. *)
Theorem global_transport_defined_iff_nonempty (z : zonal) :
  wf_zonal z →
  (is_Some (Radiation.global_transport z) ↔ (0 < length (z_lat z))%nat).
Proof.
  intros Hwf. split.
  - intros [t Ht]. unfold Radiation.global_transport, Radiation.dlat in Ht.
    destruct (length (z_lat z)) as [|n]; [| lia].
    destruct (mean (z_val z)); cbn in Ht; discriminate.
  - intros Hn. rewrite global_transport_along_axis by done. by eexists.
Qed.

Lemma global_transport_defined_iff_nonempty_witness :
  is_Some (Radiation.global_transport Samples.three_bands)
  ↔ (0 < length (z_lat Samples.three_bands))%nat.
Proof.
  apply (global_transport_defined_iff_nonempty Samples.three_bands).
  reflexivity.
Defined.

End TransportMore.

(** ** The time series of the net flux *)

Section WeightingMore.
#[local] Open Scope R_scope.
Import Xr WeightingSpec.

(** X14.  In notebook 2 the time series of the net flux is, at every time
    step, the cosine-weighted mean of [rsdt - rlut - rsut] over the cells
    of the grid (the sum of the weights being non-zero). *)
Theorem net_toa_series_is_cosine_weighted (ds : dataset)
    (v1 v2 v3 : list (list (list R))) (t : nat) (v : list (list R)) :
  d_vars ds !! "rsdt"%string = Some v1 →
  d_vars ds !! "rlut"%string = Some v2 →
  d_vars ds !! "rsut"%string = Some v3 →
  zip_with (zip_with (zip_with Rminus))
    (zip_with (zip_with (zip_with Rminus)) v1 v2) v3 !! t = Some v →
  cos_weight_total (d_lat ds) v ≠ 0 →
  ∃ series, Radiation.net_toa_series ds = Some series ∧
    series !! t = Some (Some (cos_weighted_mean (d_lat ds) v)).
Proof.
  intros H1 H2 H3 Hv Hw. unfold Radiation.net_toa_series.
  rewrite (net_toa_runs ds v1 v2 v3) by done. cbn [mbind option_bind].
  eexists. split; [reflexivity |].
  unfold weighted_mean_cube, Radiation.area_weights. cbn [c_val c_lat c_lon].
  rewrite list_lookup_fmap, Hv. cbn [fmap option_fmap option_map].
  f_equal. by apply weighted_mean_own_latitudes.
Qed.

Lemma one_column_weight_total (a b : R) :
  cos_weight_total [0; 60] [[a]; [b]] = 3 / 2.
Proof.
  unfold cos_weight_total, cells, Rsum.
  cbn [zip_with fmap list_fmap mjoin list_join app foldr fst].
  rewrite cos_lat_equator, cos_lat_60. lra.
Qed.

Lemma net_toa_series_is_cosine_weighted_witness :
  ∃ series, Radiation.net_toa_series Samples.toa_two_bands = Some series ∧
    series !! 0%nat
    = Some (Some (cos_weighted_mean [0; 60]
                    [[420 - 250 - 100]; [210 - 220 - 90]])).
Proof.
  apply (net_toa_series_is_cosine_weighted Samples.toa_two_bands
           [[[420]; [210]]] [[[250]; [220]]] [[[100]; [90]]] 0
           [[420 - 250 - 100]; [210 - 220 - 90]]).
  - reflexivity.
  - reflexivity.
  - reflexivity.
  - reflexivity.
  - cbn [Samples.toa_two_bands d_lat]. rewrite one_column_weight_total. lra.
Defined.

End WeightingMore.

(** ** Selections in time and space *)

Section Selections.
#[local] Open Scope R_scope.
Import Xr.

Lemma kept_labels {K A : Type} (P : K → Prop) `{!∀ x, Decision (P x)}
    (labels : list K) : ∀ items : list A,
  length items = length labels →
  (filter (λ p : K * A, P p.1) (zip labels items)).*1 = filter P labels.
Proof.
  induction labels as [|x labels IH]; intros [|y items] Hlen; try done.
  cbn [zip zip_with]. simpl in Hlen. destruct (decide (P x)) as [Hx|Hx].
  - rewrite !filter_cons_True by done. rewrite fmap_cons. cbn [fst].
    f_equal. apply IH. lia.
  - rewrite !filter_cons_False by done. apply IH. lia.
Qed.

Lemma kept_items_Forall {K A : Type} (P : K → Prop) `{!∀ x, Decision (P x)}
    (Q : A → Prop) (labels : list K) : ∀ items : list A,
  Forall Q items → Forall Q (filter (λ p : K * A, P p.1) (zip labels items)).*2.
Proof.
  induction labels as [|x labels IH]; intros [|y items] HQ; try by constructor.
  inversion HQ; subst. cbn [zip zip_with]. destruct (decide (P x)) as [Hx|Hx].
  - rewrite filter_cons_True by done. rewrite fmap_cons. constructor; [done | by apply IH].
  - rewrite filter_cons_False by done. by apply IH.
Qed.

Lemma kept_items_length {K A : Type} (P : K → Prop) `{!∀ x, Decision (P x)}
    (labels : list K) (items : list A) :
  length items = length labels →
  length (filter (λ p : K * A, P p.1) (zip labels items)).*2 = length (filter P labels).
Proof.
  intros Hlen. rewrite <- (kept_labels P labels items Hlen). by rewrite !length_fmap.
Qed.

(** X18.  On a well-formed array whose time axis is in increasing order the
    selection of a period is defined: its result is well formed on the
    same grid, and its time steps are, with their dates and in their
    order, the time steps of the array whose date lies in the period, both
    bounds included.  On a time axis in any other order the selection
    raises. *)
Theorem sel_time_well_formed (a b : Z) (c : cube) :
  wf_cube c →
  (Sorted Z.le (c_time c) →
   ∃ c', sel_time a b c = Some c' ∧ wf_cube c' ∧
     c_lat c' = c_lat c ∧ c_lon c' = c_lon c ∧
     zip (c_time c') (c_val c')
     = filter (λ p : Z * list (list R), (a ≤ p.1 ∧ p.1 ≤ b)%Z)
         (zip (c_time c) (c_val c))) ∧
  (¬ Sorted Z.le (c_time c) → sel_time a b c = None).
Proof.
  intros [Hlen Hrows]. split.
  - intros Hs. rewrite sel_time_sorted by done. eexists. split; [reflexivity |].
    cbn [c_time c_lat c_lon c_val]. unfold ForcingSpec.selected.
    split; [| split; [done | split; [done |]]].
    + split; cbn [c_time c_lat c_lon c_val].
      * exact (kept_items_length (λ t, a ≤ t ∧ t ≤ b)%Z (c_time c) (c_val c) Hlen).
      * exact (kept_items_Forall (λ t, a ≤ t ∧ t ≤ b)%Z _ (c_time c) (c_val c) Hrows).
    + rewrite <- (kept_labels (λ t, a ≤ t ∧ t ≤ b)%Z (c_time c) (c_val c)) by done.
      apply zip_fst_snd.
  - intros Hs. unfold sel_time. by rewrite time_slice_unsorted.
Qed.

Lemma monthly_tas_wf : wf_cube Samples.monthly_tas.
Proof. split; [reflexivity | repeat constructor]. Qed.

Lemma sel_time_well_formed_witness :
  (∃ c', sel_time 20000101 20091231 Samples.monthly_tas = Some c' ∧ wf_cube c' ∧
     c_lat c' = [30; 40] ∧ c_lon c' = [10; 30] ∧
     zip (c_time c') (c_val c')
     = filter (λ p : Z * list (list R), (20000101 ≤ p.1 ∧ p.1 ≤ 20091231)%Z)
         (zip (c_time Samples.monthly_tas) (c_val Samples.monthly_tas))) ∧
  (¬ Sorted Z.le (c_time Samples.monthly_tas)
   → sel_time 20000101 20091231 Samples.monthly_tas = None).
Proof.
  destruct (sel_time_well_formed 20000101 20091231 Samples.monthly_tas monthly_tas_wf)
    as [Hsorted Hnot].
  split; [| exact Hnot].
  apply Hsorted. repeat constructor; done.
Defined.

Lemma Rlt_nle (x y : R) : x < y ↔ ¬ y <= x.
Proof. split; [lra | apply Rnot_le_lt]. Qed.

(** X19.  On a well-formed array whose latitude and longitude axes are in
    increasing order the selection of a box, as for [italy], is defined:
    its result is well formed on the same time axis, its latitudes and
    longitudes are those of the array that lie in the box, the bounds
    included and in their order, and every time step keeps the rows and
    the columns of those labels. *)
Theorem sel_box_well_formed (lon0 lon1 lat0 lat1 : R) (c : cube) :
  wf_cube c → Sorted Rle (c_lat c) → Sorted Rle (c_lon c) →
  ∃ c', cube_sel_box lon0 lon1 lat0 lat1 c = Some c' ∧ wf_cube c' ∧
    c_time c' = c_time c ∧
    c_lat c' = filter (λ φ, lat0 <= φ ∧ φ <= lat1) (c_lat c) ∧
    c_lon c' = filter (λ l, lon0 <= l ∧ l <= lon1) (c_lon c) ∧
    Forall2 (λ v' v,
      v' = (λ row : list R,
              (filter (λ p : R * R, lon0 <= p.1 ∧ p.1 <= lon1) (zip (c_lon c) row)).*2)
           <$> (filter (λ p : R * list R, lat0 <= p.1 ∧ p.1 <= lat1)
                  (zip (c_lat c) v)).*2)
      (c_val c') (c_val c).
Proof.
  intros [Hlen Hrows] Hlat Hlon. unfold cube_sel_box.
  rewrite !slice_locs_sorted by done. cbn [mbind option_bind].
  eexists. split; [reflexivity |]. cbn [c_time c_lat c_lon c_val].
  rewrite !(slice_labels_sorted Rle Rlt Rle_trans Rlt_nle) by done.
  set (rows := λ v : list (list R),
    (filter (λ p : R * list R, lat0 <= p.1 ∧ p.1 <= lat1) (zip (c_lat c) v)).*2).
  set (columns := λ row : list R,
    (filter (λ p : R * R, lon0 <= p.1 ∧ p.1 <= lon1) (zip (c_lon c) row)).*2).
  assert (∀ v, wf_rows (c_lat c) (c_lon c) v →
            Forall (λ row, length row = length (c_lon c)) (rows v)) as Hkept.
  { intros v [_ Hr].
    exact (kept_items_Forall (λ φ, lat0 <= φ ∧ φ <= lat1) _ (c_lat c) v Hr). }
  assert ((λ v : list (list R),
             (λ row : list R,
                slice (searchsorted_left Rlt lon0 (c_lon c),
                       searchsorted_right Rle lon1 (c_lon c)) row)
             <$> slice (searchsorted_left Rlt lat0 (c_lat c),
                        searchsorted_right Rle lat1 (c_lat c)) v) <$> c_val c
          = (λ v, columns <$> rows v) <$> c_val c) as ->.
  { apply Forall_fmap_ext. eapply Forall_impl; [exact Hrows |].
    intros v Hv. cbn beta. pose proof Hv as [Hv1 _].
    rewrite (slice_items_sorted Rle Rlt Rle_trans Rlt_nle lat0 lat1 (c_lat c) v)
      by done.
    apply Forall_fmap_ext. eapply Forall_impl; [exact (Hkept v Hv) |].
    intros row Hrow. cbn beta.
    by apply (slice_items_sorted Rle Rlt Rle_trans Rlt_nle lon0 lon1 (c_lon c) row). }
  split; [| split; [done | split; [done | split; [done |]]]].
  - split; cbn [c_time c_lat c_lon c_val]; [by rewrite length_fmap |].
    apply Forall_fmap. eapply Forall_impl; [exact Hrows |].
    intros v Hv. cbn. pose proof Hv as [Hv1 _]. split.
    + rewrite length_fmap.
      exact (kept_items_length (λ φ, lat0 <= φ ∧ φ <= lat1) (c_lat c) v Hv1).
    + apply Forall_fmap. eapply Forall_impl; [exact (Hkept v Hv) |].
      intros row Hrow. cbn.
      exact (kept_items_length (λ l, lon0 <= l ∧ l <= lon1) (c_lon c) row Hrow).
  - apply Forall2_fmap_l. apply Forall_Forall2_diag. by apply Forall_true.
Qed.

Lemma sel_box_well_formed_witness :
  ∃ c', cube_sel_box 5 20 35 50 Samples.monthly_tas = Some c' ∧ wf_cube c' ∧
    c_time c' = c_time Samples.monthly_tas ∧
    c_lat c' = filter (λ φ, 35 <= φ ∧ φ <= 50) (c_lat Samples.monthly_tas) ∧
    c_lon c' = filter (λ l, 5 <= l ∧ l <= 20) (c_lon Samples.monthly_tas) ∧
    Forall2 (λ v' v,
      v' = (λ row : list R,
              (filter (λ p : R * R, 5 <= p.1 ∧ p.1 <= 20)
                 (zip (c_lon Samples.monthly_tas) row)).*2)
           <$> (filter (λ p : R * list R, 35 <= p.1 ∧ p.1 <= 50)
                  (zip (c_lat Samples.monthly_tas) v)).*2)
      (c_val c') (c_val Samples.monthly_tas).
Proof.
  apply (sel_box_well_formed 5 20 35 50 Samples.monthly_tas monthly_tas_wf).
  - repeat constructor. cbn. lra.
  - repeat constructor. cbn. lra.
Defined.

(** Around Italy the grid of the sample keeps the latitude 40 and the
    longitude 10. *)
Example italy_box_labels :
  filter (λ φ, 35 <= φ ∧ φ <= 50) [30; 40] = [40] ∧
  filter (λ l, 5 <= l ∧ l <= 20) [10; 30] = [10].
Proof.
  split.
  - rewrite filter_cons_False by lra. by rewrite filter_cons_True by lra.
  - rewrite filter_cons_True by lra. by rewrite filter_cons_False by lra.
Qed.

Lemma length_filter_impl {A : Type} (P Q : A → Prop)
    `{!∀ x, Decision (P x), !∀ x, Decision (Q x)} (l : list A) :
  (∀ x, P x → Q x) → (length (filter P l) ≤ length (filter Q l))%nat.
Proof.
  intros HPQ. induction l as [|x l IH]; [done |].
  destruct (decide (P x)) as [Hp|Hp].
  - rewrite !filter_cons_True by auto. cbn [length]. lia.
  - rewrite (filter_cons_False P) by done.
    destruct (decide (Q x)).
    + rewrite filter_cons_True by done. cbn [length]. lia.
    + by rewrite filter_cons_False by done.
Qed.

(** On an axis stored in decreasing order a slice whose bounds are given
    in increasing order keeps nothing. *)
Lemma slice_locs_decreasing (lo hi : R) (labels : list R) :
  ¬ Sorted Rle labels → Sorted Rle (reverse labels) → lo < hi →
  ∃ locs, slice_locs lo hi labels = Some locs ∧ (locs.2 ≤ locs.1)%nat.
Proof.
  intros Hinc Hdec Hlt. unfold slice_locs.
  destruct (is_monotonic Rle labels) eqn:E.
  { by apply is_monotonic_Sorted in E. }
  rewrite (proj2 (is_monotonic_Sorted Rle (reverse labels)) Hdec).
  eexists. split; [reflexivity |]. cbn [fst snd].
  apply length_filter_impl. intros y Hy. lra.
Qed.

(** On an axis in no order the bounds must be labels of the axis, each in
    one place, and the slice runs between their positions, whatever lies
    in between. *)
Example slice_locs_in_no_order :
  slice_locs 2 4 [2; 3; 1; 4; 3; 5] = Some (0%nat, 4%nat) ∧
  slice_locs 0 4 [2; 3; 1; 4; 3; 5] = None ∧
  slice_locs 2 3 [2; 3; 1; 4; 3; 5] = None.
Proof.
  unfold slice_locs, occurrences.
  cbn [is_monotonic reverse rev_append imap fmap list_fmap compose].
  repeat split.
  all: repeat (case_bool_decide; try lra); cbn [andb].
  all: repeat (first [rewrite filter_cons_True by (cbn [snd]; lra)
                     | rewrite filter_cons_False by (cbn [snd]; lra)
                     | rewrite filter_nil]).
  all: reflexivity.
Qed.

(** X22.  On a dataset whose latitude axis is stored north to south (in
    decreasing order), with a longitude axis in increasing order and at
    least one time step, the box of [italy], whose latitudes are given as
    35 to 50, keeps no latitude: [italy] is a field without a row. *)
Theorem italy_north_to_south (data : dataset) (tas : list (list (list R))) :
  d_vars data !! "tas"%string = Some tas → d_time data ≠ [] →
  Sorted Rle (d_lon data) →
  ¬ Sorted Rle (d_lat data) → Sorted Rle (reverse (d_lat data)) →
  DataAnalysis.italy data
  = Some (mkField [] (filter (λ l, 5 <= l ∧ l <= 20) (d_lon data)) []).
Proof.
  intros Htas Htime Hlon Hinc Hdec.
  unfold DataAnalysis.italy, getitem. rewrite Htas. cbn [mbind option_bind].
  unfold cube_sel_box. cbn [c_time c_lat c_lon c_val].
  destruct (slice_locs_decreasing 35 50 (d_lat data) Hinc Hdec) as ([p q] & -> & Hle);
    [lra |].
  cbn [fst snd] in Hle. cbn [mbind option_bind].
  rewrite slice_locs_sorted by done. cbn [mbind option_bind].
  rewrite (slice_labels_sorted Rle Rlt Rle_trans Rlt_nle) by done.
  unfold slice at 1. cbn [fst snd].
  replace (q - p)%nat with 0%nat by lia. cbn [take].
  unfold mean_time. cbn [c_time c_lat c_lon c_val].
  by destruct (d_time data).
Qed.

Lemma italy_north_to_south_witness :
  DataAnalysis.italy Samples.north_to_south
  = Some (mkField [] (filter (λ l, 5 <= l ∧ l <= 20) [10; 30]) []).
Proof.
  apply (italy_north_to_south Samples.north_to_south [[[7; 8]; [5; 6]]]).
  - reflexivity.
  - done.
  - repeat constructor. cbn. lra.
  - intros H. apply Sorted_inv in H as [_ H]. apply HdRel_inv in H. lra.
  - repeat constructor. cbn. lra.
Defined.



End Selections.

(** ** The precipitation figure of notebook 3 *)

Section Precipitation.
#[local] Open Scope R_scope.
Import Xr ForcingSpec Kernel.

Lemma lookup_insert_fresh (h : gmap loc DataArray) (l : loc) (a b : DataArray) :
  h !! l = Some a → <[fresh (dom h) := b]> h !! l = Some a.
Proof.
  intros Hl. rewrite lookup_insert_ne; [done |].
  intros <-. apply (is_fresh (dom h)). apply elem_of_dom. by exists a.
Qed.

Lemma transform_then {B : Type} (t : transformation) (l : loc) (rest : loc → M B)
    (k : kernel) (a : DataArray) (v : array) :
  heap k !! l = Some a → transformed t (values a) = Some v →
  (transform t l ≫= rest) k
  = rest (fresh (dom (heap k)))
         (mkKernel (<[fresh (dom (heap k)) := mkDataArray (name a) v]> (heap k))
                   (figures k)).
Proof.
  intros Hl Hv. unfold transform, mbind, M_bind, bind, get, lift, new.
  by rewrite Hl, Hv.
Qed.

Lemma sub_then {B : Type} (l1 l2 : loc) (rest : loc → M B) (k : kernel)
    (a b : DataArray) (v : array) :
  heap k !! l1 = Some a → heap k !! l2 = Some b →
  array_binop Rminus (values a) (values b) = Some v →
  (sub l1 l2 ≫= rest) k
  = rest (fresh (dom (heap k)))
         (mkKernel (<[fresh (dom (heap k)) := mkDataArray (result_name a b) v]> (heap k))
                   (figures k)).
Proof.
  intros H1 H2 Hv. unfold sub, mbind at 1, M_bind, bind.
  by rewrite (binary_runs Rminus l1 l2 k a b v).
Qed.

Lemma alter_alter {A : Type} (f g : A → A) (i : nat) (l : list A) :
  alter f i (alter g i l) = alter (λ x, f (g x)) i l.
Proof.
  revert i. induction l as [|x l IH]; intros [|i]; try done.
  cbn [alter list_alter]. f_equal. apply IH.
Qed.

Lemma cell_fmap (g : R → R) (v : list (list R)) (i j : nat) :
  cell ((λ row : list R, g <$> row) <$> v) i j = g <$> cell v i j.
Proof.
  unfold cell. rewrite list_lookup_fmap.
  destruct (v !! i) as [row|]; [| done].
  cbn [fmap option_fmap option_map mbind option_bind]. by rewrite list_lookup_fmap.
Qed.

Lemma panel_drawn (h : gmap loc DataArray) (figs : list (list axes))
    (panels : list axes) (ax : nat) (l : loc) (a : DataArray)
    (kws : list keyword) (s : option string) :
  h !! l = Some a → plotfunc (values a) = Some Mesh → is_Some (panels !! ax) →
  (plot l (length figs) ax kws ;;
   set_title (length figs) ax s ;;
   add_coastlines (length figs) ax) (mkKernel h (figs ++ [panels]))
  = Some (tt, mkKernel h (figs ++
      [alter (λ x, mkAxes (artists x ++ [mkArtist l (values a) Mesh (vmin_of kws)
                                           (vmax_of kws) (cmap_of kws)]) s true)
         ax panels])).
Proof.
  intros Hl Hp [x Hx]. unfold set_title, add_coastlines.
  unfold mbind, M_bind, bind. rewrite (plot_mesh l _ _ _ _ a) by done.
  rewrite (on_axes_last _ _ _ ax _ x) by done.
  erewrite on_axes_last by (rewrite list_lookup_alter_eq, Hx; reflexivity).
  erewrite on_axes_last by (rewrite !list_lookup_alter_eq, Hx; reflexivity).
  do 4 f_equal. by rewrite !alter_alter.
Qed.

Lemma panel_then {B : Type} (rest : M B) (h : gmap loc DataArray)
    (figs : list (list axes)) (panels : list axes) (ax : nat) (l : loc)
    (a : DataArray) (kws : list keyword) (s : option string) :
  h !! l = Some a → plotfunc (values a) = Some Mesh → is_Some (panels !! ax) →
  (plot l (length figs) ax kws ;;
   set_title (length figs) ax s ;;
   add_coastlines (length figs) ax ;;
   rest) (mkKernel h (figs ++ [panels]))
  = rest (mkKernel h (figs ++
      [alter (λ x, mkAxes (artists x ++ [mkArtist l (values a) Mesh (vmin_of kws)
                                           (vmax_of kws) (cmap_of kws)]) s true)
         ax panels])).
Proof.
  intros Hl Hp [x Hx]. unfold set_title, add_coastlines.
  unfold mbind, M_bind, bind. rewrite (plot_mesh l _ _ _ _ a) by done.
  rewrite (on_axes_last _ _ _ ax _ x) by done.
  erewrite on_axes_last by (rewrite list_lookup_alter_eq, Hx; reflexivity).
  erewrite on_axes_last by (rewrite !list_lookup_alter_eq, Hx; reflexivity).
  do 3 f_equal. by rewrite !alter_alter.
Qed.
Lemma value_scale_rows (k : R) (La Lo : list R) (v : list (list R)) (i j : nat) :
  wf_rows La Lo v → (i < length La)%nat → (j < length Lo)%nat →
  value (scale_rows k v) i j = value v i j * k.
Proof.
  intros Hv Hi Hj. unfold value, scale_rows. rewrite cell_fmap.
  by rewrite (cell_wf La Lo v i j).
Qed.

Lemma subplots_then {B : Type} (n : nat) (rest : nat → M B) (k : kernel) :
  (subplots n ≫= rest) k
  = rest (length (figures k))
         (mkKernel (heap k) (figures k ++ [replicate n empty_axes])).
Proof. reflexivity. Qed.



(** On fields of a single cell the first [plot] of the cell raises
    [TypeError]: nothing is left to draw once the dimensions of length one
    are dropped. *)
Lemma precipitation_figure_single_cells :
  precipitation_figure 1%positive 2%positive Samples.single_cells = None.
Proof.
  unfold precipitation_figure. rewrite subplots_then.
  erewrite transform_then; [| reflexivity | reflexivity].
  unfold mbind at 1, M_bind, bind.
  by erewrite plot_raises; [| cbn [heap]; apply lookup_insert_eq | reflexivity].
Qed.

End Precipitation.
